(** * BaseTrainer: checkpointing, resume and fail-safe training loop

    A shallow embedding of [training/trainers/base_trainer.py].  The trainer
    object, the checkpoint directory and the printed messages are threaded
    explicitly through a small state-and-exception monad; Python exceptions
    keep the state reached when they were raised, as in the interpreter. *)

From Stdlib Require Import ZArith String Ascii List Bool Floats Lia.
From Stdlib Require Import Sorted OrderedTypeEx.
From stdpp Require Import base option list gmap strings.

Local Open Scope string_scope.
Local Open Scope Z_scope.

(** ** Python built-ins used by the trainer *)

Module Py.

(** [sub in s] on [str]: [sub] occurs in [s] as a contiguous block. *)
Fixpoint str_in (sub s : string) : bool :=
  String.prefix sub s ||
  match s with
  | EmptyString => false
  | String _ s' => str_in sub s'
  end.

(** Decimal digits of a non-negative integer, most significant first. *)
Definition digit_char (d : Z) : ascii := ascii_of_nat (48 + Z.to_nat d).

Fixpoint dec_digits (fuel : nat) (n : Z) (acc : string) : string :=
  match fuel with
  | O => acc
  | S fuel' =>
      let acc' := String (digit_char (n mod 10)) acc in
      if n / 10 =? 0 then acc' else dec_digits fuel' (n / 10) acc'
  end.

Definition str_of_nonneg (n : Z) : string :=
  dec_digits (S (Z.to_nat (Z.log2 n))) n "".

Fixpoint zeros (k : nat) : string :=
  match k with
  | O => ""
  | S k' => String "0" (zeros k')
  end.

(** ['{:04d}'.format(z)]: sign-aware zero padding to a minimum width of 4. *)
Definition format_04d (z : Z) : string :=
  let body := str_of_nonneg (Z.abs z) in
  let sign := if z <? 0 then "-" else "" in
  sign +:+ zeros (4 - String.length sign - String.length body) +:+ body.

(** [sorted] on a list of [str]: ascending in the code-point order.  The
    interpreter uses a stable merge sort; on a total order both sorts
    return the same list, and insertion is the simplest to reason about. *)
Fixpoint insert_sorted (x : string) (l : list string) : list string :=
  match l with
  | [] => [x]
  | y :: l' => if String.leb x y then x :: y :: l' else y :: insert_sorted x l'
  end.

Definition sorted (l : list string) : list string :=
  foldr insert_sorted [] l.

(** [l[:-k]] for a list [l] and an integer [k] (the stop index is [-k]):
    a negative stop counts from the end and is clamped at 0, a stop of 0
    gives the empty list, a positive stop is clamped at [len(l)]. *)
Definition slice_to_neg {A} (l : list A) (k : Z) : list A :=
  let stop := - k in
  if stop <? 0 then take (Z.to_nat (Z.max 0 (Z.of_nat (length l) + stop))) l
  else take (Z.to_nat stop) l.

(** [fnmatch] restricted to literal characters and [*]; the patterns of the
    trainer are built from a class name, which cannot hold [?] or [[]. *)
Fixpoint fnmatch (pat s : string) : bool :=
  match pat with
  | EmptyString => match s with EmptyString => true | _ => false end
  | String c pat' =>
      if Ascii.eqb c "*" then
        (fix star (s : string) : bool :=
           fnmatch pat' s ||
           match s with
           | EmptyString => false
           | String _ s' => star s'
           end) s
      else
        match s with
        | String d s' => Ascii.eqb c d && fnmatch pat' s'
        | EmptyString => false
        end
  end.

Definition startswith_dot (s : string) : bool :=
  match s with
  | String c _ => Ascii.eqb c "."
  | EmptyString => false
  end.

(** [name] if [p] is [dir/name] with [name] a single, non-empty path
    component. *)
Fixpoint strip_prefix (pre p : string) : option string :=
  match pre with
  | EmptyString => Some p
  | String a pre' =>
      match p with
      | String b p' => if Ascii.eqb a b then strip_prefix pre' p' else None
      | EmptyString => None
      end
  end.

Definition entry_of (dir p : string) : option string :=
  match strip_prefix (dir +:+ "/") p with
  | Some name =>
      if str_in "/" name || String.eqb name "" then None else Some name
  | None => None
  end.

End Py.


(** ** Data model *)

Definition blob := list Z.

(** The learning-rate scheduler: its settable [last_epoch] counter and the
    rest of its state. *)
Record scheduler := { last_epoch : Z; sched_state : blob }.

(** [self.actor.net], unwrapped from its multi-GPU wrapper; [net_type] is
    [type(net).__name__]. *)
Record network := {
  net_type : string;
  state_dict : blob;
  info : option string;
  constructor : option string
}.

(** What [settings] and [type(self.actor).__name__] contribute. *)
Record config := {
  actor_type : string;
  base_save_dir : option string;      (* self._base_save_dir *)
  project_path : string;              (* settings.project_path *)
  keep_last_checkpoints : Z           (* settings.keep_last_checkpoints *)
}.

Record trainer := {
  cfg : config;
  net : network;
  optimizer : blob;
  lr_scheduler : option scheduler;
  just_started : bool;
  epoch : Z;
  stats : gmap string float;
  best_val : float;
  epoch_of_best_val : Z;
  current_best_val : option float
}.

(** The dictionary handed to [torch.save]. *)
Record checkpoint := {
  ck_epoch : Z;
  ck_actor_type : string;
  ck_net_type : string;
  ck_state_dict : blob;
  ck_net_info : option string;
  ck_constructor : option string;
  ck_optimizer : blob;
  ck_lr_scheduler : scheduler;
  ck_stats : gmap string float;
  ck_best_val : float;
  ck_epoch_of_best_val : Z
}.

(** A file holds a whole pickled checkpoint, or the first [n] bytes of one
    when the writer died before finishing. *)
Inductive file :=
| Whole (c : checkpoint)
| Torn (c : checkpoint) (n : nat).

Record filesystem := { files : gmap string file; dirs : gset string }.

Inductive exn :=
| AssertionError (current recorded : string)  (* the net-type assert of the loader *)
| AttributeError (attr : string)               (* attribute access on None *)
| NoCheckpointFound                            (* Exception('No checkpoint found') *)
| TypeError
| KeyError (key : string)
| FileNotFoundError (path : string)
| UnpicklingError (path : string)              (* torch.load on a torn file *)
| ActorError (code : Z).                       (* whatever train_epoch raises *)

(** The lines the trainer prints. *)
Inductive event :=
| ValidationImproved (old : float) (old_epoch : Z) (new : float) (e : Z)
| TrainingCrashed (e : Z)
| TracebackHeader
| Traceback (x : exn)
| Restarting
| FinishedTraining
| NoMatchingCheckpoint
| CurrentEpoch (e : Z)
| LoadFrom (path : string).

(** [calls] counts the invocations of [train_epoch]; the external actor may
    behave differently from one call to the next. *)
Record world := {
  self : trainer;
  disk : filesystem;
  stdout : list event;
  calls : nat
}.

(** What one call of the subclass's [train_epoch] does to the trainer: it
    raises, or it returns after updating [stats] and [current_best_val]. *)
Inductive epoch_outcome :=
| EpochRaises (x : exn)
| EpochDone (st : gmap string float) (cbv : option float).

(** *** Field updates *)

Definition with_net (n : network) (t : trainer) : trainer :=
  {| cfg := cfg t; net := n; optimizer := optimizer t; lr_scheduler := lr_scheduler t;
     just_started := just_started t; epoch := epoch t; stats := stats t;
     best_val := best_val t; epoch_of_best_val := epoch_of_best_val t;
     current_best_val := current_best_val t |}.

Definition with_optimizer (o : blob) (t : trainer) : trainer :=
  {| cfg := cfg t; net := net t; optimizer := o; lr_scheduler := lr_scheduler t;
     just_started := just_started t; epoch := epoch t; stats := stats t;
     best_val := best_val t; epoch_of_best_val := epoch_of_best_val t;
     current_best_val := current_best_val t |}.

Definition with_lr_scheduler (s : option scheduler) (t : trainer) : trainer :=
  {| cfg := cfg t; net := net t; optimizer := optimizer t; lr_scheduler := s;
     just_started := just_started t; epoch := epoch t; stats := stats t;
     best_val := best_val t; epoch_of_best_val := epoch_of_best_val t;
     current_best_val := current_best_val t |}.

Definition with_just_started (b : bool) (t : trainer) : trainer :=
  {| cfg := cfg t; net := net t; optimizer := optimizer t; lr_scheduler := lr_scheduler t;
     just_started := b; epoch := epoch t; stats := stats t;
     best_val := best_val t; epoch_of_best_val := epoch_of_best_val t;
     current_best_val := current_best_val t |}.

Definition with_epoch (e : Z) (t : trainer) : trainer :=
  {| cfg := cfg t; net := net t; optimizer := optimizer t; lr_scheduler := lr_scheduler t;
     just_started := just_started t; epoch := e; stats := stats t;
     best_val := best_val t; epoch_of_best_val := epoch_of_best_val t;
     current_best_val := current_best_val t |}.

Definition with_stats (st : gmap string float) (t : trainer) : trainer :=
  {| cfg := cfg t; net := net t; optimizer := optimizer t; lr_scheduler := lr_scheduler t;
     just_started := just_started t; epoch := epoch t; stats := st;
     best_val := best_val t; epoch_of_best_val := epoch_of_best_val t;
     current_best_val := current_best_val t |}.

Definition with_best_val (b : float) (t : trainer) : trainer :=
  {| cfg := cfg t; net := net t; optimizer := optimizer t; lr_scheduler := lr_scheduler t;
     just_started := just_started t; epoch := epoch t; stats := stats t;
     best_val := b; epoch_of_best_val := epoch_of_best_val t;
     current_best_val := current_best_val t |}.

Definition with_epoch_of_best_val (e : Z) (t : trainer) : trainer :=
  {| cfg := cfg t; net := net t; optimizer := optimizer t; lr_scheduler := lr_scheduler t;
     just_started := just_started t; epoch := epoch t; stats := stats t;
     best_val := best_val t; epoch_of_best_val := e;
     current_best_val := current_best_val t |}.

Definition with_current_best_val (c : option float) (t : trainer) : trainer :=
  {| cfg := cfg t; net := net t; optimizer := optimizer t; lr_scheduler := lr_scheduler t;
     just_started := just_started t; epoch := epoch t; stats := stats t;
     best_val := best_val t; epoch_of_best_val := epoch_of_best_val t;
     current_best_val := c |}.

Definition with_self (t : trainer) (w : world) : world :=
  {| self := t; disk := disk w; stdout := stdout w; calls := calls w |}.

Definition with_disk (fs : filesystem) (w : world) : world :=
  {| self := self w; disk := fs; stdout := stdout w; calls := calls w |}.

(** ** The state-and-exception monad *)

Inductive result (A : Type) :=
| Ok (a : A)
| Raise (x : exn).
Arguments Ok {A} a.
Arguments Raise {A} x.

Definition M (A : Type) : Type := world -> result A * world.

Definition ret {A} (a : A) : M A := fun w => (Ok a, w).

Definition raise {A} (x : exn) : M A := fun w => (Raise x, w).

Definition bind {A B} (c : M A) (k : A -> M B) : M B :=
  fun w =>
    match c w with
    | (Ok a, w') => k a w'
    | (Raise x, w') => (Raise x, w')
    end.

Notation "'let*' x ':=' c 'in' k" := (bind c (fun x => k))
  (at level 10, x pattern, c at level 100, k at level 200).
Notation "c1 '>>' c2" := (bind c1 (fun _ => c2))
  (at level 90, right associativity, only parsing).

Definition get_self : M trainer := fun w => (Ok (self w), w).
Definition get_disk : M filesystem := fun w => (Ok (disk w), w).
Definition modify_self (f : trainer -> trainer) : M unit :=
  fun w => (Ok tt, with_self (f (self w)) w).
Definition print (ev : event) : M unit :=
  fun w => (Ok tt, {| self := self w; disk := disk w; stdout := stdout w ++ [ev];
                      calls := calls w |}).

(** ** The checkpoint directory *)

(** The operations the trainer performs on the file system.  [TorchSave] is
    the only one that a crash can interrupt half-way; [os.rename],
    [os.remove] and [os.makedirs] of one directory happen or do not. *)
Inductive fs_op :=
| MakeDirs (d : string)
| TorchSave (c : checkpoint) (p : string)
| Rename (src dst : string)
| Remove (p : string).

Module FS.

Definition exists_ (p : string) (fs : filesystem) : bool :=
  bool_decide (p ∈ dirs fs) || bool_decide (is_Some (files fs !! p)).

Definition isdir (p : string) (fs : filesystem) : bool :=
  bool_decide (p ∈ dirs fs).

Definition makedirs (d : string) (fs : filesystem) : filesystem :=
  {| files := files fs; dirs := {[d]} ∪ dirs fs |}.

Definition write (p : string) (f : file) (fs : filesystem) : filesystem :=
  {| files := <[p := f]> (files fs); dirs := dirs fs |}.

Definition remove (p : string) (fs : filesystem) : filesystem :=
  {| files := delete p (files fs); dirs := dirs fs |}.

(** One operation, run to completion. *)
Definition exec_op (op : fs_op) (fs : filesystem) : result filesystem :=
  match op with
  | MakeDirs d => Ok (makedirs d fs)
  | TorchSave c p => Ok (write p (Whole c) fs)
  | Rename src dst =>
      match files fs !! src with
      | Some f => Ok (write dst f (remove src fs))
      | None => Raise (FileNotFoundError src)
      end
  | Remove p =>
      match files fs !! p with
      | Some _ => Ok (remove p fs)
      | None => Raise (FileNotFoundError p)
      end
  end.

(** [glob.glob(dir + '/' + pat)]: the files directly inside [dir] whose
    name matches [pat]; a leading dot is matched only by a pattern that
    starts with one.  The directory part is taken literally.  The order of
    the result is unspecified, every use sorts it. *)
Definition matches (dir pat p : string) : bool :=
  match Py.entry_of dir p with
  | Some name =>
      Py.fnmatch pat name &&
      (negb (Py.startswith_dot name) || Py.startswith_dot pat)
  | None => false
  end.

Definition glob (dir pat : string) (fs : filesystem) : list string :=
  List.filter (matches dir pat) (map_to_list (files fs)).*1.

End FS.

(** The states of the disk that another process, or the next run after a
    crash, can observe while the operations [ops] execute from [fs]. *)
Inductive visible_during : list fs_op -> filesystem -> filesystem -> Prop :=
| vis_here ops fs :
    visible_during ops fs fs
| vis_torn c p n ops fs :
    visible_during (TorchSave c p :: ops) fs (FS.write p (Torn c n) fs)
| vis_next op ops fs fs1 fs' :
    FS.exec_op op fs = Ok fs1 ->
    visible_during ops fs1 fs' ->
    visible_during (op :: ops) fs fs'.

Definition run_op (op : fs_op) : M unit :=
  fun w =>
    match FS.exec_op op (disk w) with
    | Ok fs => (Ok tt, with_disk fs w)
    | Raise x => (Raise x, w)
    end.

Fixpoint run_ops (ops : list fs_op) : M unit :=
  match ops with
  | [] => ret tt
  | op :: ops' => run_op op >> run_ops ops'
  end.

(** [torch.load(path)] *)
Definition torch_load (path : string) : M checkpoint :=
  fun w =>
    match files (disk w) !! path with
    | Some (Whole c) => (Ok c, w)
    | Some (Torn _ _) => (Raise (UnpicklingError path), w)
    | None => (Raise (FileNotFoundError path), w)
    end.

(** ** BaseTrainer *)

(** ['{}'.format(self._base_save_dir)] *)
Definition str_of_dir (d : option string) : string :=
  match d with
  | Some s => s
  | None => "None"
  end.

(** Truth value of [self._base_save_dir]. *)
Definition truthy_dir (d : option string) : bool :=
  match d with
  | Some s => negb (String.eqb s "")
  | None => false
  end.

Definition list_in (key : string) (l : list string) : bool :=
  existsb (String.eqb key) l.

(** [__init__]: the training state a fresh trainer starts from. *)
Definition new_trainer (c : config) (n : network) (opt : blob)
    (sched : option scheduler) : trainer :=
  {| cfg := c; net := n; optimizer := opt; lr_scheduler := sched;
     just_started := false; epoch := 0; stats := ∅;
     best_val := infinity; epoch_of_best_val := 0;
     current_best_val := None |}.

(** [update_settings] creates the workspace directory when it is missing. *)
Definition new_world (c : config) (n : network) (opt : blob)
    (sched : option scheduler) (fs : filesystem) : world :=
  {| self := new_trainer c n opt sched;
     disk := match base_save_dir c with
             | Some d => if FS.exists_ d fs then fs else FS.makedirs d fs
             | None => fs
             end;
     stdout := []; calls := 0 |}.

(** *** save_checkpoint *)

Definition directory_of (t : trainer) : string :=
  str_of_dir (base_save_dir (cfg t)) +:+ "/" +:+ project_path (cfg t).

Definition tmp_file_path (name : option string) (t : trainer) : string :=
  match name with
  | Some name => directory_of t +:+ "/" +:+ net_type (net t) +:+ "_" +:+ name +:+ ".tmp"
  | None => directory_of t +:+ "/" +:+ net_type (net t) +:+ "_ep"
              +:+ Py.format_04d (epoch t) +:+ ".tmp"
  end.

Definition file_path (name : option string) (t : trainer) : string :=
  match name with
  | Some name => directory_of t +:+ "/" +:+ net_type (net t) +:+ "_" +:+ name +:+ ".pth.tar"
  | None => directory_of t +:+ "/" +:+ net_type (net t) +:+ "_ep"
              +:+ Py.format_04d (epoch t) +:+ ".pth.tar"
  end.

Definition checkpoint_state (t : trainer) (s : scheduler) : checkpoint :=
  {| ck_epoch := epoch t;
     ck_actor_type := actor_type (cfg t);
     ck_net_type := net_type (net t);
     ck_state_dict := state_dict (net t);
     ck_net_info := info (net t);
     ck_constructor := constructor (net t);
     ck_optimizer := optimizer t;
     ck_lr_scheduler := s;
     ck_stats := stats t;
     ck_best_val := best_val t;
     ck_epoch_of_best_val := epoch_of_best_val t |}.

(** The file-system part of [save_checkpoint], in program order. *)
Definition save_ops (name : option string) (t : trainer) (s : scheduler)
    (fs : filesystem) : list fs_op :=
  let state := checkpoint_state t s in
  let directory := directory_of t in
  (if FS.exists_ directory fs then [] else [MakeDirs directory]) ++
  [TorchSave state (tmp_file_path name t);
   Rename (tmp_file_path name t) (file_path name t)].

Definition save_checkpoint (name : option string) : M unit :=
  let* t := get_self in
  let* fs := get_disk in
  match lr_scheduler t with
  | None => raise (AttributeError "state_dict")
  | Some s => run_ops (save_ops name t s fs)
  end.

(** *** delete_old_checkpoints *)

Definition numbered_pattern (t : trainer) : string :=
  net_type (net t) +:+ "_ep*.pth.tar".

Definition delete_old_checkpoints : M unit :=
  let* t := get_self in
  let* fs := get_disk in
  let ckpts := Py.sorted (FS.glob (directory_of t) (numbered_pattern t) fs) in
  let ckpts_to_remove :=
    Py.slice_to_neg (Py.sorted ckpts) (keep_last_checkpoints (cfg t)) in
  run_ops (map Remove ckpts_to_remove).

(** *** load_checkpoint *)

(** The [checkpoint] argument: absent, an epoch number, a path, or a value
    of another type. *)
Inductive ckpt_arg :=
| CkNone
| CkInt (n : Z)
| CkStr (p : string)
| CkOther.

(** [load_checkpoint] returns [True], or [None] when it gives up early. *)
Inductive pyret := RetNone | RetTrue.

Inductive resolution :=
| Resolved (checkpoint_path : string) (resume : bool)
| NothingToLoad
| ResolveFails (x : exn).

(** [checkpoint_dict.keys()] of a checkpoint written by [save_checkpoint]. *)
Definition checkpoint_keys : list string :=
  ["epoch"; "actor_type"; "net_type"; "state_dict"; "net_info"; "constructor";
   "optimizer"; "lr_scheduler"; "stats"; "best_val"; "epoch_of_best_val"].

Definition never_loaded : list string :=
  ["lr_scheduler"; "constructor"; "net_type"; "actor_type"; "net_info"].

(** [setattr(self, key, checkpoint_dict[key])].  With the five keys of
    [never_loaded] always ignored, the keys of a checkpoint that reach this
    point are the four below; any other key is missing from the dictionary. *)
Definition setattr_from (key : string) (c : checkpoint) : M unit :=
  if String.eqb key "epoch" then modify_self (with_epoch (ck_epoch c))
  else if String.eqb key "stats" then modify_self (with_stats (ck_stats c))
  else if String.eqb key "best_val" then modify_self (with_best_val (ck_best_val c))
  else if String.eqb key "epoch_of_best_val" then
    modify_self (with_epoch_of_best_val (ck_epoch_of_best_val c))
  else raise (KeyError key).

Definition load_state_dict (b : blob) (n : network) : network :=
  {| net_type := net_type n; state_dict := b; info := info n;
     constructor := constructor n |}.

Definition set_info (i : option string) (n : network) : network :=
  {| net_type := net_type n; state_dict := state_dict n; info := i;
     constructor := constructor n |}.

Definition set_constructor (k : option string) (n : network) : network :=
  {| net_type := net_type n; state_dict := state_dict n; info := info n;
     constructor := k |}.

Definition load_field (key : string) (c : checkpoint) : M unit :=
  if String.eqb key "state_dict" then
    modify_self (fun t => with_net (load_state_dict (ck_state_dict c) (net t)) t)
  else if String.eqb key "optimizer" then
    match ck_optimizer c with
    | [] => ret tt
    | _ :: _ => modify_self (with_optimizer (ck_optimizer c))
    end
  else setattr_from key c.

Fixpoint load_fields (fields ignore_fields : list string) (c : checkpoint) : M unit :=
  match fields with
  | [] => ret tt
  | key :: rest =>
      (if list_in key ignore_fields then ret tt else load_field key c) >>
      load_fields rest ignore_fields c
  end.

(** The state a load from an explicit file starts from. *)
Definition reset_training_state (t : trainer) : trainer :=
  with_epoch_of_best_val 0 (with_best_val infinity (with_stats ∅ (with_epoch 0 t))).

Definition set_last_epoch (e : Z) (s : scheduler) : scheduler :=
  {| last_epoch := e; sched_state := sched_state s |}.

Section Trainer.

(** The collaborators the base class does not define: the subclass's
    [train_epoch] (as a function of the call number and of the trainer it
    is invoked on), the scheduler's [step] and [os.path.expanduser]. *)
Variable train_epoch : nat -> trainer -> epoch_outcome.
Variable sched_step : scheduler -> scheduler.
Variable expanduser : string -> string.

Definition resolve_checkpoint (checkpoint : ckpt_arg) (t : trainer)
    (fs : filesystem) : resolution :=
  match checkpoint with
  | CkNone =>
      let checkpoint_list :=
        Py.sorted (FS.glob (directory_of t) (numbered_pattern t) fs) in
      match last checkpoint_list with
      | Some p => Resolved p true
      | None => NothingToLoad
      end
  | CkInt n =>
      Resolved (directory_of t +:+ "/" +:+ net_type (net t) +:+ "_ep"
                  +:+ Py.format_04d n +:+ ".pth.tar") true
  | CkStr p =>
      if FS.isdir p fs then
        let checkpoint_list := Py.sorted (FS.glob p "*_ep*.pth.tar" fs) in
        match last checkpoint_list with
        | Some q => Resolved q true
        | None => ResolveFails NoCheckpointFound
        end
      else Resolved (expanduser p) false
  | CkOther => ResolveFails TypeError
  end.

Definition load_checkpoint (checkpoint : ckpt_arg)
    (fields ignore_fields additional_ignore_fields : option (list string))
    (load_constructor : bool) : M pyret :=
  let* t := get_self in
  let* fs := get_disk in
  match resolve_checkpoint checkpoint t fs with
  | NothingToLoad => print NoMatchingCheckpoint >> ret RetNone
  | ResolveFails x => raise x
  | Resolved checkpoint_path resume =>
      print (CurrentEpoch (epoch t)) >>
      print (LoadFrom checkpoint_path) >>
      let* checkpoint_dict := torch_load checkpoint_path in
      let checkpoint_net_type := ck_net_type checkpoint_dict in
      if negb (String.eqb (net_type (net t)) checkpoint_net_type
               || Py.str_in checkpoint_net_type (net_type (net t)))
      then raise (AssertionError (net_type (net t)) checkpoint_net_type)
      else
        let fields := default checkpoint_keys fields in
        let ignore_fields :=
          (default ["settings"] ignore_fields ++ never_loaded
             ++ default [] additional_ignore_fields)%list in
        load_fields fields ignore_fields checkpoint_dict >>
        (if resume then ret tt else modify_self reset_training_state) >>
        (let* t1 := get_self in print (CurrentEpoch (epoch t1))) >>
        (match ck_constructor checkpoint_dict with
         | Some k =>
             if load_constructor
             then modify_self (fun t => with_net (set_constructor (Some k) (net t)) t)
             else ret tt
         | None => ret tt
         end) >>
        (match ck_net_info checkpoint_dict with
         | Some i => modify_self (fun t => with_net (set_info (Some i) (net t)) t)
         | None => ret tt
         end) >>
        (if list_in "epoch" fields then
           let* t2 := get_self in
           match lr_scheduler t2 with
           | Some s =>
               modify_self (with_lr_scheduler (Some (set_last_epoch (epoch t2) s)))
           | None => raise (AttributeError "last_epoch")
           end
         else ret tt) >>
        ret RetTrue
  end.

(** *** train *)

Definition call_train_epoch : M unit :=
  fun w =>
    match train_epoch (calls w) (self w) with
    | EpochRaises x =>
        (Raise x, {| self := self w; disk := disk w; stdout := stdout w;
                     calls := S (calls w) |})
    | EpochDone st cbv =>
        (Ok tt, {| self := with_current_best_val cbv (with_stats st (self w));
                   disk := disk w; stdout := stdout w; calls := S (calls w) |})
    end.

Definition step_scheduler : M unit :=
  let* t := get_self in
  match lr_scheduler t with
  | Some s => modify_self (with_lr_scheduler (Some (sched_step s)))
  | None => ret tt
  end.

(** Lines 87-94: the best-model decision. *)
Definition consider_best : M unit :=
  let* t := get_self in
  match current_best_val t with
  | Some c =>
      if PrimFloat.ltb c (best_val t) then
        print (ValidationImproved (best_val t) (epoch_of_best_val t) c (epoch t)) >>
        modify_self (with_best_val c) >>
        modify_self (with_epoch_of_best_val (epoch t)) >>
        save_checkpoint (Some "model_best")
      else ret tt
  | None => ret tt
  end.

(** The body of the loop over epochs. *)
Definition epoch_body (e : Z) : M unit :=
  modify_self (with_epoch e) >>
  call_train_epoch >>
  step_scheduler >>
  consider_best >>
  modify_self (with_just_started false) >>
  let* t := get_self in
  if truthy_dir (base_save_dir (cfg t)) then
    save_checkpoint None >> delete_old_checkpoints
  else ret tt.

(** [for epoch in range(e, e + n)]; the local variable [epoch] of [train]
    keeps the last value it was given, also when the body raises. *)
Fixpoint epoch_loop (n : nat) (e : Z) (local_epoch : Z) (w : world)
    : result unit * Z * world :=
  match n with
  | O => (Ok tt, local_epoch, w)
  | S n' =>
      match epoch_body e w with
      | (Ok _, w') => epoch_loop n' (e + 1) e w'
      | (Raise x, w') => (Raise x, e, w')
      end
  end.

(** The [try] block. *)
Definition attempt (max_epochs : Z) (load_latest : bool)
    (load_ignore_fields : option (list string)) (local_epoch : Z) (w : world)
    : result unit * Z * world :=
  match (if load_latest
         then load_checkpoint CkNone None None load_ignore_fields false
         else ret RetNone) w with
  | (Raise x, w1) => (Raise x, local_epoch, w1)
  | (Ok _, w1) =>
      epoch_loop (Z.to_nat (max_epochs + 1 - (epoch (self w1) + 1)))
        (epoch (self w1) + 1) local_epoch w1
  end.

Definition num_tries : nat := 2.

(** [for i in range(n)] around the [try]/[except]. *)
Fixpoint tries (n : nat) (max_epochs : Z) (load_latest fail_safe : bool)
    (load_ignore_fields : option (list string)) (local_epoch : Z) (w : world)
    : result unit * world :=
  match n with
  | O => (Ok tt, w)
  | S n' =>
      match attempt max_epochs load_latest load_ignore_fields local_epoch w with
      | (Ok _, e, w1) =>
          tries n' max_epochs load_latest fail_safe load_ignore_fields e w1
      | (Raise x, e, w1) =>
          let w2 := snd (print (TrainingCrashed e) w1) in
          if fail_safe then
            let w3 := with_self (with_epoch (epoch (self w2) - 1) (self w2)) w2 in
            let w4 := snd ((print TracebackHeader >> print (Traceback x)
                            >> print Restarting) w3) in
            tries n' max_epochs true fail_safe load_ignore_fields e w4
          else (Raise x, w2)
      end
  end.

Definition train (max_epochs : Z) (load_latest fail_safe : bool)
    (load_ignore_fields : option (list string)) : M unit :=
  modify_self (with_just_started true) >>
  tries num_tries max_epochs load_latest fail_safe load_ignore_fields (-1) >>
  print FinishedTraining.

End Trainer.

(** ** Specification-side notions *)

(** The worlds reached at the end of each completed pass through the loop
    body, for the loop [for epoch in range(e, e + n)] started in [w]; the
    list stops at the first pass that raises. *)
Fixpoint epoch_states (train_epoch : nat -> trainer -> epoch_outcome)
    (sched_step : scheduler -> scheduler) (n : nat) (e : Z) (w : world)
    : list world :=
  match n with
  | O => []
  | S n' =>
      match epoch_body train_epoch sched_step e w with
      | (Ok _, w') => w' :: epoch_states train_epoch sched_step n' (e + 1) w'
      | (Raise _, _) => []
      end
  end.

(** "The last epoch at which best_val strictly decreased": scanning the
    pairs (epoch, best_val) in order, the epoch of the latest pair whose
    value is strictly below the one before it; [init] when there is none. *)
Fixpoint last_decrease (prev : float) (init : Z) (tr : list (Z * float)) : Z :=
  match tr with
  | [] => init
  | (e, b) :: tr' => last_decrease b (if PrimFloat.ltb b prev then e else init) tr'
  end.

Definition best_trace (ws : list world) : list (Z * float) :=
  map (fun w => (epoch (self w), best_val (self w))) ws.

(** [b] is at most [a] in the order of the floats. *)
Definition not_above (b a : float) : Prop := PrimFloat.leb b a = true.

(** The last character of a string. *)
Fixpoint last_char (s : string) : option ascii :=
  match s with
  | EmptyString => None
  | String c EmptyString => Some c
  | String _ s' => last_char s'
  end.

(** The load failed on the net-type assertion. *)
Definition fails_incompatible {A} (r : result A) : Prop :=
  exists current recorded, r = Raise (AssertionError current recorded).

(** The incompatibility test in the words of the specification: the
    recorded tag differs from the current model type and is not a prefix of
    it. *)
Definition differs_and_no_prefix (recorded current : string) : Prop :=
  recorded <> current /\ String.prefix recorded current = false.

(** [recorded] occurs somewhere inside [current]. *)
Definition occurs_in (recorded current : string) : Prop :=
  exists a b, current = a +:+ recorded +:+ b.

(** The files after a completed [save_checkpoint]: the checkpoint written
    under the temporary name, then moved to the final one. *)
Definition saved_files (name : option string) (t : trainer) (s : scheduler)
    (m : gmap string file) : gmap string file :=
  <[file_path name t := Whole (checkpoint_state t s)]>
    (delete (tmp_file_path name t)
       (<[tmp_file_path name t := Whole (checkpoint_state t s)]> m)).

(** The world in which the best checkpoint is saved after a promotion. *)
Definition promoted_world (c : float) (w : world) : world :=
  {| self := with_epoch_of_best_val (epoch (self w)) (with_best_val c (self w));
     disk := disk w;
     stdout := stdout w ++ [ValidationImproved (best_val (self w))
                              (epoch_of_best_val (self w)) c (epoch (self w))];
     calls := calls w |}.

(** The four decimal digits of an epoch below 10000, most significant
    first. *)
Definition four_digits (e : Z) : string :=
  String (Py.digit_char (e / 1000))
    (String (Py.digit_char (e / 100 mod 10))
       (String (Py.digit_char (e / 10 mod 10))
          (String (Py.digit_char (e mod 10)) ""))).

(** Every numbered checkpoint in the directory belongs to an epoch below
    10000. *)
Definition all_below_10000 (w : world) : Prop :=
  forall q,
    In q (FS.glob (directory_of (self w)) (numbered_pattern (self w)) (disk w)) ->
    exists e, 0 <= e < 10000 /\ q = file_path None (with_epoch e (self w)).

(** Every file whose name ends like a final checkpoint name is whole. *)
Definition finals_whole (fs : filesystem) : Prop :=
  forall p f,
    files fs !! p = Some f -> last_char p = Some "r"%char -> exists c, f = Whole c.

(** ** The parts of a load

    [load_checkpoint] after the compatibility assertion: the loop over the
    fields ([load_fields]) and then the statements that follow it. *)

(** What [load_checkpoint] does once the fields are loaded: the reset of a
    load from an explicit file, the second [current epoch] line, the
    constructor and the net info, and the scheduler's [last_epoch]. *)
Definition load_tail (resume load_constructor : bool) (c : checkpoint)
    (fields : list string) : M pyret :=
  (if resume then ret tt else modify_self reset_training_state) >>
  (let* t1 := get_self in print (CurrentEpoch (epoch t1))) >>
  (match ck_constructor c with
   | Some k =>
       if load_constructor
       then modify_self (fun t => with_net (set_constructor (Some k) (net t)) t)
       else ret tt
   | None => ret tt
   end) >>
  (match ck_net_info c with
   | Some i => modify_self (fun t => with_net (set_info (Some i) (net t)) t)
   | None => ret tt
   end) >>
  (if list_in "epoch" fields then
     let* t2 := get_self in
     match lr_scheduler t2 with
     | Some s =>
         modify_self (with_lr_scheduler (Some (set_last_epoch (epoch t2) s)))
     | None => raise (AttributeError "last_epoch")
     end
   else ret tt) >>
  ret RetTrue.

(** The list [ignore_fields] ends up as. *)
Definition ignored (ignore_fields additional_ignore_fields : option (list string))
    : list string :=
  (default ["settings"] ignore_fields ++ never_loaded
     ++ default [] additional_ignore_fields)%list.

(** What [net.load_state_dict] and [optimizer.load_state_dict] need in
    order to return: a state with as many entries as the current one (they
    raise on missing or unexpected entries).  [load_field] embeds the calls
    that return. *)
Definition fits (new current : blob) : Prop := length new = length current.

(** The world when the checkpoint file is opened: the two lines printed. *)
Definition announced (path : string) (w : world) : world :=
  {| self := self w; disk := disk w;
     stdout := (stdout w ++ [CurrentEpoch (epoch (self w))]) ++ [LoadFrom path];
     calls := calls w |}.

(** ** Example inputs *)

Module Demo.

Definition glunet : network :=
  {| net_type := "GLUNet"; state_dict := [1; 2; 3]; info := None;
     constructor := None |}.

Definition settings (keep : Z) : config :=
  {| actor_type := "GLUNetBatchPreprocessing"; base_save_dir := Some "ws";
     project_path := "run"; keep_last_checkpoints := keep |}.

Definition sched : scheduler := {| last_epoch := 0; sched_state := [] |}.

Definition step (s : scheduler) : scheduler :=
  {| last_epoch := last_epoch s + 1; sched_state := sched_state s |}.

Definition empty_disk : filesystem := {| files := ∅; dirs := ∅ |}.

(** A fresh trainer with a scheduler, keeping [keep] numbered checkpoints. *)
Definition fresh (keep : Z) : world :=
  new_world (settings keep) glunet [7] (Some sched) empty_disk.

(** The same trainer built without a scheduler. *)
Definition fresh_no_sched : world :=
  new_world (settings 1) glunet [7] None empty_disk.

(** A [train_epoch] that raises on every call. *)
Definition crashing_actor (_ : nat) (_ : trainer) : epoch_outcome :=
  EpochRaises (ActorError 1).

(** A [train_epoch] that validates with the same score at every epoch. *)
Definition steady_actor (_ : nat) (t : trainer) : epoch_outcome :=
  EpochDone (stats t) (Some 0.5%float).

(** A [train_epoch] that validates on its first two calls only, with the
    scores 0.375 and then 0.25, and sets no score afterwards. *)
Definition validating_twice_actor (n : nat) (t : trainer) : epoch_outcome :=
  EpochDone (stats t)
    (match n with
     | O => Some 0.375%float
     | S O => Some 0.25%float
     | _ => None
     end).

(** A [train_epoch] that does no validation. *)
Definition silent_actor (_ : nat) (t : trainer) : epoch_outcome :=
  EpochDone (stats t) None.

Definition at_epoch (e : Z) (w : world) : world :=
  with_self (with_epoch e (self w)) w.

(** The disk after numbered saves at epochs 9999 and 10000. *)
Definition two_saves (keep : Z) : world :=
  let w1 := snd (save_checkpoint None (at_epoch 9999 (fresh keep))) in
  snd (save_checkpoint None (at_epoch 10000 w1)).

(** A checkpoint recorded for the net type [recorded], and a fresh [GLUNet]
    trainer over a disk that holds it at the explicit path
    [old/weights.pth.tar]. *)
Definition foreign_checkpoint (recorded : string) : checkpoint :=
  {| ck_epoch := 12; ck_actor_type := "A"; ck_net_type := recorded;
     ck_state_dict := [9]; ck_net_info := None; ck_constructor := None;
     ck_optimizer := []; ck_lr_scheduler := sched; ck_stats := ∅;
     ck_best_val := 0.25%float; ck_epoch_of_best_val := 3 |}.

Definition with_foreign (recorded : string) : world :=
  with_disk (FS.write "old/weights.pth.tar" (Whole (foreign_checkpoint recorded))
               empty_disk) (fresh 1).

(** Pretrained weights for [glunet], saved at epoch 12 of another run, and
    a fresh trainer over a disk that holds them at [old/weights.pth.tar]. *)
Definition pretrained_checkpoint : checkpoint :=
  {| ck_epoch := 12; ck_actor_type := "GLUNetBatchPreprocessing";
     ck_net_type := "GLUNet"; ck_state_dict := [4; 5; 6]; ck_net_info := None;
     ck_constructor := None; ck_optimizer := [8]; ck_lr_scheduler := sched;
     ck_stats := ∅; ck_best_val := 0.25%float; ck_epoch_of_best_val := 3 |}.

Definition with_pretrained : world :=
  with_disk (FS.write "old/weights.pth.tar" (Whole pretrained_checkpoint)
               empty_disk) (fresh 1).

(** The disk seen when the writer of the checkpoint of epoch 3 dies after
    ten bytes. *)
Definition crashed_disk : filesystem :=
  FS.write (tmp_file_path None (self (at_epoch 3 (fresh 1))))
    (Torn (checkpoint_state (self (at_epoch 3 (fresh 1))) sched) 10)
    (FS.makedirs "ws/run" (disk (fresh 1))).

(** The trainer without a scheduler, over a disk that holds checkpoints. *)
Definition no_sched_over_saves : world :=
  with_disk (disk (two_saves 5)) fresh_no_sched.

End Demo.

(** * Properties *)

Ltac munfold :=
  unfold bind, ret, raise, get_self, get_disk, modify_self, print,
    run_op in *; simpl in *.

(** ** The fail-safe loop *)

Section FailSafe.

Variable train_epoch : nat -> trainer -> epoch_outcome.
Variable sched_step : scheduler -> scheduler.
Variable expanduser : string -> string.

(** With [fail_safe] set, no exception leaves the loop over the attempts,
    whatever the number of attempts and whatever they raise. *)
Lemma tries_fail_safe_returns n max_epochs load_latest ign e w :
  exists w', tries train_epoch sched_step expanduser n max_epochs load_latest
               true ign e w = (Ok tt, w').
Proof.
  revert load_latest e w. induction n as [|n IH]; intros load_latest e w; simpl.
  - eauto.
  - destruct (attempt _ _ _ _ _ _ _ _) as [[[[]|x] e1] w1]; apply IH.
Qed.

Lemma train_fail_safe_returns max_epochs load_latest ign w :
  exists w', train train_epoch sched_step expanduser max_epochs load_latest
               true ign w = (Ok tt, w').
Proof.
  unfold train, bind, modify_self.
  destruct (tries_fail_safe_returns num_tries max_epochs load_latest ign (-1)
              (with_self (with_just_started true (self w)) w)) as [w' Hw'].
  rewrite Hw'. unfold print. eauto.
Qed.

(** Without [fail_safe] the first failing attempt is re-raised, after the
    crash line has been printed. *)
Lemma tries_no_fail_safe_propagates n max_epochs load_latest ign e w x e1 w1 :
  attempt train_epoch sched_step expanduser max_epochs load_latest ign e w
    = (Raise x, e1, w1) ->
  tries train_epoch sched_step expanduser (S n) max_epochs load_latest false ign e w
    = (Raise x, snd (print (TrainingCrashed e1) w1)).
Proof. intros H. simpl. rewrite H. reflexivity. Qed.

(** With [fail_safe] a failing attempt decrements [self.epoch], forces
    [load_latest] and goes on with the remaining attempts. *)
Lemma tries_fail_safe_retries n max_epochs load_latest ign e w x e1 w1 :
  attempt train_epoch sched_step expanduser max_epochs load_latest ign e w
    = (Raise x, e1, w1) ->
  tries train_epoch sched_step expanduser (S n) max_epochs load_latest true ign e w
    = tries train_epoch sched_step expanduser n max_epochs true true ign e1
        {| self := with_epoch (epoch (self w1) - 1) (self w1);
           disk := disk w1;
           stdout := stdout w1 ++ [TrainingCrashed e1; TracebackHeader;
                                   Traceback x; Restarting];
           calls := calls w1 |}.
Proof.
  intros H. simpl. rewrite H. munfold.
  rewrite <- !app_assoc. reflexivity.
Qed.

End FailSafe.

(** C1 (the code departs from the claim): with [fail_safe] set and a
    [train_epoch] that raises at every call, [train] makes its two attempts,
    prints each failure, and then returns normally after printing the closing
    line; nothing is re-raised to the caller. *)
Theorem train_fail_safe_swallows_final_failure :
  let r := train Demo.crashing_actor Demo.step id 5 false true None (Demo.fresh 1) in
  fst r = Ok tt /\
  stdout (snd r) =
    [TrainingCrashed 1; TracebackHeader; Traceback (ActorError 1); Restarting;
     NoMatchingCheckpoint;
     TrainingCrashed 1; TracebackHeader; Traceback (ActorError 1); Restarting;
     FinishedTraining] /\
  epoch (self (snd r)) = 0.
Proof. vm_compute. repeat split. Qed.

(** ** Strings *)

Lemma append_cons c a b : String c a +:+ b = String c (a +:+ b).
Proof. reflexivity. Qed.

Lemma append_nil b : "" +:+ b = b.
Proof. reflexivity. Qed.

Lemma prefix_app a s : String.prefix a s = true <-> exists b, s = a +:+ b.
Proof.
  revert s. induction a as [|c a IH]; intros s.
  - simpl. destruct s; split; eauto.
  - destruct s as [|d s]; simpl.
    + split; [discriminate | intros [b Hb]; discriminate].
    + destruct (ascii_dec c d) as [->|Hne].
      * rewrite IH. split; intros [b Hb]; exists b; rewrite append_cons in *; congruence.
      * split; [discriminate | intros [b Hb]; rewrite append_cons in Hb; congruence].
Qed.

Lemma str_in_nil sub : Py.str_in sub "" = String.prefix sub "" || false.
Proof. reflexivity. Qed.

Lemma str_in_cons sub c s :
  Py.str_in sub (String c s) = String.prefix sub (String c s) || Py.str_in sub s.
Proof. reflexivity. Qed.

Lemma str_in_spec sub s :
  Py.str_in sub s = true <-> exists a b, s = a +:+ sub +:+ b.
Proof.
  split.
  - induction s as [|c s IH]; rewrite ?str_in_nil, ?str_in_cons, orb_true_iff;
      intros [H|H]; try discriminate.
    + apply prefix_app in H as [b Hb]. exists "", b. exact Hb.
    + apply prefix_app in H as [b Hb]. exists "", b. exact Hb.
    + destruct (IH H) as (a & b & ->). exists (String c a), b. reflexivity.
  - intros (a & b & ->). induction a as [|c a IH].
    + rewrite append_nil.
      assert (Hp : String.prefix sub (sub +:+ b) = true) by (apply prefix_app; eauto).
      destruct (sub +:+ b); rewrite ?str_in_nil, ?str_in_cons, Hp; reflexivity.
    + rewrite append_cons, str_in_cons, IH. apply orb_true_r.
Qed.

Lemma append_nil_r s : s +:+ "" = s.
Proof. induction s as [|c s IH]; [reflexivity|]. rewrite append_cons, IH. reflexivity. Qed.

Lemma str_in_refl s : Py.str_in s s = true.
Proof. apply str_in_spec. exists "", "". rewrite append_nil, append_nil_r. reflexivity. Qed.

(** ** Loading *)

Lemma load_field_frame key c w r w' :
  load_field key c w = (r, w') ->
  lr_scheduler (self w') = lr_scheduler (self w) /\ disk w' = disk w.
Proof.
  unfold load_field, setattr_from.
  repeat (match goal with
          | |- context [String.eqb ?a ?b] => destruct (String.eqb a b)
          end);
    try destruct (ck_optimizer c); munfold; intros H; inversion H; subst;
    simpl; auto.
Qed.

Lemma load_fields_frame fields ign c w r w' :
  load_fields fields ign c w = (r, w') ->
  lr_scheduler (self w') = lr_scheduler (self w) /\ disk w' = disk w.
Proof.
  revert w. induction fields as [|k rest IH]; intros w; simpl.
  - munfold. intros H; inversion H; auto.
  - unfold bind. destruct (list_in k ign).
    + unfold ret at 1. apply IH.
    + destruct (load_field k c w) as [[[]|x] w1] eqn:E.
      * intros H. apply IH in H. apply load_field_frame in E.
        destruct H, E. split; congruence.
      * intros H. inversion H; subst. eapply load_field_frame; eauto.
Qed.

(** The field loop raises nothing but [KeyError]. *)
Lemma load_fields_raises fields ign c w x w' :
  load_fields fields ign c w = (Raise x, w') -> exists k, x = KeyError k.
Proof.
  revert w. induction fields as [|k rest IH]; intros w; simpl.
  - munfold. discriminate.
  - unfold bind. destruct (list_in k ign).
    + unfold ret at 1. apply IH.
    + destruct (load_field k c w) as [[[]|y] w1] eqn:E.
      * apply IH.
      * intros H. inversion H; subst. revert E.
        unfold load_field, setattr_from.
        repeat (match goal with
                | |- context [String.eqb ?a ?b] => destruct (String.eqb a b)
                end);
          try destruct (ck_optimizer c); munfold; intros E; inversion E; eauto.
Qed.

(** Entering [load_checkpoint] once the path is resolved. *)
Ltac enter_load Hr :=
  unfold load_checkpoint;
  unfold bind at 1; unfold get_self at 1; unfold bind at 1; unfold get_disk at 1;
  rewrite Hr; unfold bind at 1; unfold print at 1; unfold bind at 1;
  unfold print at 1; unfold bind at 1; unfold torch_load at 1; simpl disk.

Section Loading.

Variable expanduser : string -> string.

Lemma load_without_scheduler checkpoint fields ign add lc w path resume :
  lr_scheduler (self w) = None ->
  resolve_checkpoint expanduser checkpoint (self w) (disk w) = Resolved path resume ->
  list_in "epoch" (default checkpoint_keys fields) = true ->
  exists x w', load_checkpoint expanduser checkpoint fields ign add lc w = (Raise x, w').
Proof.
  intros Hs Hr Hf. enter_load Hr.
  destruct (files (disk w) !! path) as [[c|c n]|]; eauto.
  cbv zeta. destruct (negb _). { unfold raise. eauto. }
  unfold bind at 1.
  destruct (load_fields _ _ _ _) as [[[]|x] w1] eqn:E; eauto.
  apply load_fields_frame in E. simpl in E. destruct E as [E _]. rewrite Hs in E.
  rewrite Hf.
  destruct resume, (ck_constructor c), lc, (ck_net_info c); munfold; rewrite E; eauto.
Qed.

(** Past the assertion, [load_checkpoint] raises [KeyError] or
    [AttributeError] only. *)
Lemma load_incompatible_iff_assert checkpoint fields ign add lc w path resume c :
  resolve_checkpoint expanduser checkpoint (self w) (disk w) = Resolved path resume ->
  files (disk w) !! path = Some (Whole c) ->
  fails_incompatible (fst (load_checkpoint expanduser checkpoint fields ign add lc w))
  <-> Py.str_in (ck_net_type c) (net_type (net (self w))) = false.
Proof.
  intros Hr Hf. enter_load Hr. rewrite Hf. cbv zeta.
  destruct (Py.str_in _ _) eqn:Hin.
  - rewrite orb_true_r. change (negb true) with false. cbv iota.
    split; [|discriminate].
    intros (cur & rec & H). exfalso. revert H.
    unfold bind at 1.
    destruct (load_fields _ _ _ _) as [[[]|x] w1] eqn:E.
    + destruct resume, (ck_constructor c), lc, (ck_net_info c),
        (list_in "epoch" (default checkpoint_keys fields));
        munfold; try discriminate;
        try (destruct (lr_scheduler _); discriminate).
    + simpl. apply load_fields_raises in E as [k ->]. discriminate.
  - rewrite orb_false_r.
    destruct (String.eqb _ _) eqn:Heq.
    + apply String.eqb_eq in Heq. rewrite <- Heq, str_in_refl in Hin. discriminate.
    + simpl. unfold fails_incompatible. split; eauto.
Qed.

End Loading.

(** C6 (the claim as worded fails): a checkpoint recorded for [Net], loaded
    from an explicit file path into a [GLUNet] trainer, differs from the
    current model type and is not a prefix of it, and the load succeeds. *)
Lemma load_accepts_inner_substring :
  ~ (fails_incompatible
       (fst (load_checkpoint id (CkStr "old/weights.pth.tar") None None None false
               (Demo.with_foreign "Net")))
     <-> differs_and_no_prefix "Net" (net_type (net (self (Demo.with_foreign "Net"))))).
Proof.
  intros [_ H].
  destruct H as (cur & rec & H).
  - split; [discriminate | reflexivity].
  - vm_compute in H. discriminate.
Qed.

(** C6 (amended): once a checkpoint file has been read, whatever selector
    led to it, the load fails on the net-type assertion exactly when the
    recorded tag occurs nowhere inside the current model type; a tag equal
    to the current type occurs in it. *)
Theorem load_incompatible_iff_not_substring
    (expanduser : string -> string) (arg : ckpt_arg)
    (fields ign add : option (list string)) (lc : bool)
    (w : world) (path : string) (resume : bool) (c : checkpoint) :
  resolve_checkpoint expanduser arg (self w) (disk w) = Resolved path resume ->
  files (disk w) !! path = Some (Whole c) ->
  (fails_incompatible (fst (load_checkpoint expanduser arg fields ign add lc w))
   <-> ~ occurs_in (ck_net_type c) (net_type (net (self w))))
  /\ occurs_in (net_type (net (self w))) (net_type (net (self w))).
Proof.
  intros Hr Hf. split.
  - rewrite (load_incompatible_iff_assert _ _ _ _ _ _ _ _ _ _ Hr Hf).
    unfold occurs_in. rewrite <- str_in_spec.
    destruct (Py.str_in _ _); split; intros H; congruence.
  - apply str_in_spec, str_in_refl.
Qed.

Lemma load_incompatible_iff_not_substring_witness :
  resolve_checkpoint id (CkStr "old/weights.pth.tar")
    (self (Demo.with_foreign "Flow")) (disk (Demo.with_foreign "Flow"))
    = Resolved "old/weights.pth.tar" false /\
  fails_incompatible
    (fst (load_checkpoint id (CkStr "old/weights.pth.tar") None None None false
            (Demo.with_foreign "Flow"))).
Proof.
  split; [reflexivity|].
  apply (load_incompatible_iff_not_substring id (CkStr "old/weights.pth.tar")
           None None None false (Demo.with_foreign "Flow") "old/weights.pth.tar"
           false (Demo.foreign_checkpoint "Flow")); [reflexivity | reflexivity |].
  unfold occurs_in. rewrite <- str_in_spec. vm_compute. discriminate.
Defined.

(** C9: with no numbered checkpoint of the current model type in the
    checkpoint directory, [load_checkpoint()] prints one line and returns
    without touching the trainer or the disk, and [train] goes on with the
    epochs after [self.epoch] (epoch 1 for a fresh trainer); with an existing
    directory [d] that holds no [*_ep*.pth.tar] file, [load_checkpoint(d)]
    raises instead. *)
Theorem load_without_checkpoint
    (train_epoch : nat -> trainer -> epoch_outcome)
    (sched_step : scheduler -> scheduler) (expanduser : string -> string)
    (w wd : world) (d : string) :
  FS.glob (directory_of (self w)) (numbered_pattern (self w)) (disk w) = [] ->
  FS.isdir d (disk wd) = true ->
  FS.glob d "*_ep*.pth.tar" (disk wd) = [] ->
  (forall fields ign add lc,
      load_checkpoint expanduser CkNone fields ign add lc w
      = (Ok RetNone, {| self := self w; disk := disk w;
                        stdout := stdout w ++ [NoMatchingCheckpoint];
                        calls := calls w |}))
  /\ (forall max_epochs ign e,
        attempt train_epoch sched_step expanduser max_epochs true ign e w
        = epoch_loop train_epoch sched_step
            (Z.to_nat (max_epochs + 1 - (epoch (self w) + 1)))
            (epoch (self w) + 1) e
            {| self := self w; disk := disk w;
               stdout := stdout w ++ [NoMatchingCheckpoint];
               calls := calls w |})
  /\ (forall fields ign add lc,
        load_checkpoint expanduser (CkStr d) fields ign add lc wd
        = (Raise NoCheckpointFound, wd)).
Proof.
  intros Hnone Hdir Hglob.
  assert (Hload : forall fields ign add lc,
      load_checkpoint expanduser CkNone fields ign add lc w
      = (Ok RetNone, {| self := self w; disk := disk w;
                        stdout := stdout w ++ [NoMatchingCheckpoint];
                        calls := calls w |})).
  { intros. unfold load_checkpoint, resolve_checkpoint.
    unfold bind at 1. unfold get_self at 1. unfold bind at 1. unfold get_disk at 1.
    rewrite Hnone. reflexivity. }
  split; [exact Hload | split].
  - intros. unfold attempt. rewrite Hload. reflexivity.
  - intros. unfold load_checkpoint, resolve_checkpoint.
    unfold bind at 1. unfold get_self at 1. unfold bind at 1. unfold get_disk at 1.
    rewrite Hdir, Hglob. reflexivity.
Qed.

Lemma load_without_checkpoint_witness :
  load_checkpoint id CkNone None None None false (Demo.fresh 1)
  = (Ok RetNone, {| self := self (Demo.fresh 1); disk := disk (Demo.fresh 1);
                    stdout := [NoMatchingCheckpoint]; calls := 0 |})
  /\ load_checkpoint id (CkStr "ws") None None None false (Demo.fresh 1)
     = (Raise NoCheckpointFound, Demo.fresh 1).
Proof.
  destruct (load_without_checkpoint Demo.silent_actor Demo.step id
              (Demo.fresh 1) (Demo.fresh 1) "ws") as (H1 & _ & H3);
    [vm_compute; reflexivity | vm_compute; reflexivity | vm_compute; reflexivity |].
  split; [apply H1 | apply H3].
Defined.

(** ** A trainer built without a scheduler *)

Lemma save_without_scheduler name w :
  lr_scheduler (self w) = None ->
  save_checkpoint name w = (Raise (AttributeError "state_dict"), w).
Proof. intros H. unfold save_checkpoint. munfold. rewrite H. reflexivity. Qed.

Lemma step_without_scheduler sched_step w :
  lr_scheduler (self w) = None -> step_scheduler sched_step w = (Ok tt, w).
Proof. intros H. unfold step_scheduler. munfold. rewrite H. reflexivity. Qed.

(** C10: for a trainer whose [lr_scheduler] is [None], the scheduler step of
    the epoch loop does nothing, [save_checkpoint] raises before it touches
    the disk, and every [load_checkpoint] that gets as far as a checkpoint
    path, with [epoch] among its fields, ends in an exception. *)
Theorem none_scheduler_breaks_save_and_load
    (sched_step : scheduler -> scheduler) (expanduser : string -> string)
    (w : world) :
  lr_scheduler (self w) = None ->
  step_scheduler sched_step w = (Ok tt, w)
  /\ (forall name,
        save_checkpoint name w = (Raise (AttributeError "state_dict"), w))
  /\ (forall arg fields ign add lc path resume,
        resolve_checkpoint expanduser arg (self w) (disk w) = Resolved path resume ->
        list_in "epoch" (default checkpoint_keys fields) = true ->
        exists x w',
          load_checkpoint expanduser arg fields ign add lc w = (Raise x, w')).
Proof.
  intros H. split; [|split].
  - apply step_without_scheduler, H.
  - intros. apply save_without_scheduler, H.
  - intros. eapply load_without_scheduler; eauto.
Qed.

(** C8 (the code departs from the claim): with numbered checkpoints of
    epochs 9999 and 10000 in the directory, [load_checkpoint()] resolves to
    the file of epoch 9999, the last one in the order of the names, and
    resumes from there. *)
Theorem load_latest_picks_last_name :
  let w := Demo.two_saves 5 in
  let r := load_checkpoint id CkNone None None None false w in
  Py.sorted (FS.glob "ws/run" "GLUNet_ep*.pth.tar" (disk w))
    = ["ws/run/GLUNet_ep10000.pth.tar"; "ws/run/GLUNet_ep9999.pth.tar"]
  /\ resolve_checkpoint id CkNone (self w) (disk w)
     = Resolved "ws/run/GLUNet_ep9999.pth.tar" true
  /\ fst r = Ok RetTrue
  /\ epoch (self (snd r)) = 9999.
Proof. vm_compute. repeat split. Qed.

(** ** Retention *)

(** C3 (the code departs from the claim): with [keep_last_checkpoints = 1]
    and numbered checkpoints of epochs 9999 and 10000, pruning removes the
    checkpoint of epoch 10000 and keeps the one of epoch 9999. *)
Theorem delete_old_checkpoints_drops_epoch_10000 :
  let w := Demo.two_saves 1 in
  let r := delete_old_checkpoints w in
  Py.sorted (FS.glob "ws/run" "GLUNet_ep*.pth.tar" (disk w))
    = ["ws/run/GLUNet_ep10000.pth.tar"; "ws/run/GLUNet_ep9999.pth.tar"]
  /\ fst r = Ok tt
  /\ FS.glob "ws/run" "GLUNet_ep*.pth.tar" (disk (snd r))
     = ["ws/run/GLUNet_ep9999.pth.tar"]
  /\ files (disk (snd r)) !! "ws/run/GLUNet_ep10000.pth.tar" = None.
Proof. vm_compute. repeat split. Qed.

(** The same inside [train]: resumed at epoch 9998 and run to epoch 10000
    with one checkpoint kept, the run ends with the checkpoint of epoch 9999
    as its only numbered checkpoint. *)
Lemma train_past_9999_keeps_stale_checkpoint :
  let r := train Demo.silent_actor Demo.step id 10000 false true None
             (Demo.at_epoch 9998 (Demo.fresh 1)) in
  fst r = Ok tt
  /\ epoch (self (snd r)) = 10000
  /\ FS.glob "ws/run" "GLUNet_ep*.pth.tar" (disk (snd r))
     = ["ws/run/GLUNet_ep9999.pth.tar"].
Proof. vm_compute. repeat split. Qed.

(** ** Saving *)

Lemma save_checkpoint_ok name w s :
  lr_scheduler (self w) = Some s ->
  exists ds,
    save_checkpoint name w
    = (Ok tt, with_disk {| files := saved_files name (self w) s (files (disk w));
                           dirs := ds |} w).
Proof.
  intros H. unfold save_checkpoint, save_ops. munfold. rewrite H.
  destruct (FS.exists_ _ _); simpl; munfold; rewrite lookup_insert_eq; simpl;
    eexists; reflexivity.
Qed.

(** File-system operations leave the trainer, the output and the call count alone. *)
Lemma run_ops_frame ops w r w' :
  run_ops ops w = (r, w') ->
  self w' = self w /\ stdout w' = stdout w /\ calls w' = calls w.
Proof.
  revert w. induction ops as [|op ops IH]; intros w; simpl.
  - unfold ret. intros H; inversion H; auto.
  - unfold bind, run_op. destruct (FS.exec_op op (disk w)) as [fs|x].
    + intros H. apply IH in H. exact H.
    + intros H; inversion H; auto.
Qed.

Lemma save_checkpoint_frame name w r w' :
  save_checkpoint name w = (r, w') ->
  self w' = self w /\ stdout w' = stdout w /\ calls w' = calls w.
Proof.
  unfold save_checkpoint. unfold bind at 1. unfold get_self at 1.
  unfold bind at 1. unfold get_disk at 1.
  destruct (lr_scheduler (self w)).
  - apply run_ops_frame.
  - unfold raise. intros H; inversion H; auto.
Qed.

Lemma delete_old_checkpoints_frame w r w' :
  delete_old_checkpoints w = (r, w') ->
  self w' = self w /\ stdout w' = stdout w /\ calls w' = calls w.
Proof.
  unfold delete_old_checkpoints. unfold bind at 1. unfold get_self at 1.
  unfold bind at 1. unfold get_disk at 1. apply run_ops_frame.
Qed.


(** ** The best-model decision *)

Lemma consider_best_eq w :
  consider_best w =
  match current_best_val (self w) with
  | Some c =>
      if PrimFloat.ltb c (best_val (self w))
      then save_checkpoint (Some "model_best") (promoted_world c w)
      else (Ok tt, w)
  | None => (Ok tt, w)
  end.
Proof.
  unfold consider_best, bind, get_self.
  destruct (current_best_val (self w)) as [c|]; [|reflexivity].
  destruct (PrimFloat.ltb c (best_val (self w))); reflexivity.
Qed.

(** C4: when the epoch produced a validation score [c], the decision
    promotes exactly when [c < best_val]: it then sets [best_val] to [c] and
    [epoch_of_best_val] to the current epoch and saves the checkpoint named
    [model_best], which holds the new values (with no scheduler the save
    raises and the disk is untouched); when [c < best_val] does not hold, and
    when no score was produced, nothing changes and nothing is saved. *)
Theorem consider_best_decision (w : world) :
  let t := self w in
  let r := consider_best w in
  match current_best_val t with
  | Some c =>
      if PrimFloat.ltb c (best_val t) then
        let t' := with_epoch_of_best_val (epoch t) (with_best_val c t) in
        self (snd r) = t'
        /\ best_val (self (snd r)) = c
        /\ epoch_of_best_val (self (snd r)) = epoch t
        /\ match lr_scheduler t with
           | Some s =>
               fst r = Ok tt
               /\ files (disk (snd r)) !! file_path (Some "model_best") t
                  = Some (Whole (checkpoint_state t' s))
           | None =>
               fst r = Raise (AttributeError "state_dict") /\ disk (snd r) = disk w
           end
      else r = (Ok tt, w)
  | None => r = (Ok tt, w)
  end.
Proof.
  intros t r. subst r t. rewrite consider_best_eq.
  destruct (current_best_val (self w)) as [c|]; [|reflexivity].
  destruct (PrimFloat.ltb c (best_val (self w))); [|reflexivity].
  cbv zeta.
  destruct (lr_scheduler (self w)) as [s|] eqn:Hs.
  - destruct (save_checkpoint_ok (Some "model_best") (promoted_world c w) s Hs)
      as [ds ->].
    simpl. repeat split. unfold saved_files. apply lookup_insert_eq.
  - rewrite (save_without_scheduler (Some "model_best") (promoted_world c w) Hs).
    simpl. repeat split.
Qed.

(** ** The order of the floats *)

Lemma SFcompare_refl x : SFcompare x x = None \/ SFcompare x x = Some Eq.
Proof.
  destruct x as [s|s| |s m e]; simpl; auto.
  - destruct s; auto.
  - right. destruct s; rewrite Z.compare_refl, ?Pos.compare_cont_refl; reflexivity.
Qed.

Lemma float_ltb_irrefl x : PrimFloat.ltb x x = false.
Proof.
  rewrite ltb_spec. unfold SFltb.
  destruct (SFcompare_refl (Prim2SF x)) as [-> | ->]; reflexivity.
Qed.

Lemma float_ltb_leb x y : PrimFloat.ltb x y = true -> PrimFloat.leb x y = true.
Proof.
  rewrite ltb_spec, leb_spec. unfold SFltb, SFleb.
  destruct (SFcompare _ _) as [[]|]; congruence.
Qed.

Lemma float_ltb_number x y : PrimFloat.ltb x y = true -> PrimFloat.leb x x = true.
Proof.
  rewrite ltb_spec, leb_spec. unfold SFltb, SFleb.
  destruct (SFcompare_refl (Prim2SF x)) as [H | ->]; [|reflexivity].
  destruct (Prim2SF x); simpl in *; discriminate.
Qed.

Lemma SFleb_trans x y z : SFleb x y = true -> SFleb y z = true -> SFleb x z = true.
Proof.
  unfold SFleb.
  destruct x as [sx|sx| |sx mx ex], y as [sy|sy| |sy my ey], z as [sz|sz| |sz mz ez];
    simpl; try discriminate; try reflexivity;
    repeat match goal with s : bool |- _ => destruct s end;
    simpl; try discriminate; try reflexivity.
  all: destruct (Z.compare_spec ex ey), (Z.compare_spec ey ez), (Z.compare_spec ex ez);
       try discriminate; try reflexivity; try lia; subst.
  all: rewrite ?Pos.compare_cont_spec; simpl;
    destruct (Pos.compare_spec mx my), (Pos.compare_spec my mz), (Pos.compare_spec mx mz);
    simpl; try discriminate; try reflexivity; try lia.
Qed.

Lemma float_leb_trans x y z :
  PrimFloat.leb x y = true -> PrimFloat.leb y z = true -> PrimFloat.leb x z = true.
Proof. rewrite !leb_spec. apply SFleb_trans. Qed.

(** ** best_val along the epochs *)

Section Invariant.

Variable train_epoch : nat -> trainer -> epoch_outcome.
Variable sched_step : scheduler -> scheduler.

Lemma call_train_epoch_tracked w w' :
  call_train_epoch train_epoch w = (Ok tt, w') ->
  epoch (self w') = epoch (self w)
  /\ best_val (self w') = best_val (self w)
  /\ epoch_of_best_val (self w') = epoch_of_best_val (self w).
Proof.
  unfold call_train_epoch. destruct (train_epoch _ _); intros H; inversion H.
  simpl. auto.
Qed.

Lemma step_scheduler_tracked w r w' :
  step_scheduler sched_step w = (r, w') ->
  epoch (self w') = epoch (self w)
  /\ best_val (self w') = best_val (self w)
  /\ epoch_of_best_val (self w') = epoch_of_best_val (self w).
Proof.
  unfold step_scheduler. munfold. destruct (lr_scheduler (self w));
    intros H; inversion H; simpl; auto.
Qed.

(** What one call of the decision does to the tracked fields. *)
Lemma consider_best_tracked w r w' :
  consider_best w = (r, w') ->
  epoch (self w') = epoch (self w)
  /\ ((best_val (self w') = best_val (self w)
       /\ epoch_of_best_val (self w') = epoch_of_best_val (self w))
      \/ (PrimFloat.ltb (best_val (self w')) (best_val (self w)) = true
          /\ epoch_of_best_val (self w') = epoch (self w))).
Proof.
  rewrite consider_best_eq.
  destruct (current_best_val (self w)) as [c|].
  - destruct (PrimFloat.ltb c (best_val (self w))) eqn:Hlt.
    + intros H. apply save_checkpoint_frame in H as (-> & _ & _). simpl. auto.
    + intros H; inversion H; subst; auto.
  - intros H; inversion H; subst; auto.
Qed.

Lemma epoch_body_tracked e w w' :
  epoch_body train_epoch sched_step e w = (Ok tt, w') ->
  epoch (self w') = e
  /\ ((best_val (self w') = best_val (self w)
       /\ epoch_of_best_val (self w') = epoch_of_best_val (self w))
      \/ (PrimFloat.ltb (best_val (self w')) (best_val (self w)) = true
          /\ epoch_of_best_val (self w') = e)).
Proof.
  unfold epoch_body.
  unfold bind at 1. unfold modify_self at 1.
  unfold bind at 1.
  destruct (call_train_epoch _ _) as [[[]|x] w1] eqn:E1; [|discriminate].
  apply call_train_epoch_tracked in E1. simpl in E1. destruct E1 as (He1 & Hb1 & Ho1).
  unfold bind at 1.
  destruct (step_scheduler _ _) as [[[]|x] w2] eqn:E2; [|discriminate].
  apply step_scheduler_tracked in E2. destruct E2 as (He2 & Hb2 & Ho2).
  unfold bind at 1.
  destruct (consider_best w2) as [[[]|x] w3] eqn:E3; [|discriminate].
  apply consider_best_tracked in E3. destruct E3 as (He3 & Hc3).
  unfold bind at 1. unfold modify_self at 1.
  unfold bind at 1. unfold get_self at 1. simpl self.
  assert (Hfin : forall (c : M unit) (r : result unit),
    c {| self := with_just_started false (self w3); disk := disk w3;
         stdout := stdout w3; calls := calls w3 |} = (r, w') ->
    (forall w0 (r0 : result unit) w0', c w0 = (r0, w0') -> self w0' = self w0) ->
    epoch (self w') = e
    /\ ((best_val (self w') = best_val (self w)
         /\ epoch_of_best_val (self w') = epoch_of_best_val (self w))
        \/ (PrimFloat.ltb (best_val (self w')) (best_val (self w)) = true
            /\ epoch_of_best_val (self w') = e))).
  { intros c r Hc Hframe. apply Hframe in Hc. rewrite Hc. simpl.
    rewrite He3, He2, He1. split; [reflexivity|].
    rewrite Hb2, Hb1, Ho2, Ho1, He2, He1 in Hc3. exact Hc3. }
  destruct (truthy_dir _).
  - intros H. eapply Hfin; [exact H|].
    intros w0 r0 w0'. unfold bind.
    destruct (save_checkpoint None w0) as [[[]|x] w4] eqn:E4.
    + intros E5. apply delete_old_checkpoints_frame in E5 as (-> & _).
      apply save_checkpoint_frame in E4 as (-> & _). reflexivity.
    + intros E5. inversion E5; subst.
      apply save_checkpoint_frame in E4 as (-> & _). reflexivity.
  - intros H. eapply Hfin; [exact H|].
    intros w0 r0 w0' E. inversion E. reflexivity.
Qed.

Lemma epoch_states_not_above n e w :
  not_above (best_val (self w)) (best_val (self w)) ->
  Forall (fun w' => not_above (best_val (self w')) (best_val (self w))
                    /\ not_above (best_val (self w')) (best_val (self w')))
    (epoch_states train_epoch sched_step n e w).
Proof.
  revert e w. induction n as [|n IH]; intros e w Hw; simpl; [constructor|].
  destruct (epoch_body _ _ _ _) as [[[]|x] w1] eqn:E; [|constructor].
  apply epoch_body_tracked in E as (_ & Hc).
  assert (H1 : not_above (best_val (self w1)) (best_val (self w))
               /\ not_above (best_val (self w1)) (best_val (self w1))).
  { destruct Hc as [[-> _] | [Hlt _]]; [auto|].
    split; [apply float_ltb_leb, Hlt | eapply float_ltb_number, Hlt]. }
  constructor; [exact H1|].
  eapply Forall_impl; [apply IH, H1|].
  intros w2 [H2 H3]. split; [|exact H3].
  eapply float_leb_trans; [exact H2 | apply H1].
Qed.

Lemma epoch_states_monotone n e w i j wi wj :
  not_above (best_val (self w)) (best_val (self w)) ->
  (i <= j)%nat ->
  (w :: epoch_states train_epoch sched_step n e w) !! i = Some wi ->
  (w :: epoch_states train_epoch sched_step n e w) !! j = Some wj ->
  not_above (best_val (self wj)) (best_val (self wi)).
Proof.
  revert e w i j wi wj.
  induction n as [|n IH]; intros e w i j wi wj Hw Hij Hi Hj.
  - simpl in *. destruct i, j; simpl in *; try discriminate.
    inversion Hi; inversion Hj; subst. exact Hw.
  - destruct i as [|i].
    + change (Some w = Some wi) in Hi. inversion Hi; subst wi.
      destruct j as [|j].
      * change (Some w = Some wj) in Hj. inversion Hj; subst. exact Hw.
      * change (epoch_states train_epoch sched_step (S n) e w !! j = Some wj) in Hj.
        pose proof (epoch_states_not_above (S n) e w Hw) as HF.
        rewrite Forall_forall in HF.
        apply (HF wj). eapply list_elem_of_lookup_2. exact Hj.
    + destruct j as [|j]; [lia|]. simpl in Hi, Hj.
      destruct (epoch_body train_epoch sched_step e w) as [[[]|x] w1] eqn:E;
        [|rewrite lookup_nil in Hi; discriminate].
      pose proof E as E'. apply epoch_body_tracked in E' as (_ & Hc).
      apply (IH (e + 1) w1 i j); [|lia|exact Hi|exact Hj].
      destruct Hc as [[-> _] | [Hlt _]]; [exact Hw | eapply float_ltb_number, Hlt].
Qed.

Lemma epoch_states_tracks n e w k wk :
  epoch_states train_epoch sched_step n e w !! k = Some wk ->
  epoch_of_best_val (self wk)
  = last_decrease (best_val (self w)) (epoch_of_best_val (self w))
      (best_trace (take (S k) (epoch_states train_epoch sched_step n e w))).
Proof.
  revert e w k. induction n as [|n IH]; intros e w k; simpl.
  - rewrite lookup_nil. discriminate.
  - destruct (epoch_body _ _ _ _) as [[[]|x] w1] eqn:E;
      [|rewrite lookup_nil; discriminate].
    apply epoch_body_tracked in E as (He & Hc).
    assert (Hstep : (if PrimFloat.ltb (best_val (self w1)) (best_val (self w))
                     then epoch (self w1) else epoch_of_best_val (self w))
                    = epoch_of_best_val (self w1)).
    { destruct Hc as [[Hb Ho] | [Hlt Ho]].
      - rewrite Hb, float_ltb_irrefl. congruence.
      - rewrite Hlt. congruence. }
    destruct k as [|k]; simpl.
    + intros H; inversion H; subst. rewrite ?take_0. simpl. symmetry. exact Hstep.
    + intros H. rewrite Hstep. apply IH. exact H.
Qed.

Lemma epoch_loop_states n e l w e' w' :
  epoch_loop train_epoch sched_step n e l w = (Ok tt, e', w') ->
  length (epoch_states train_epoch sched_step n e w) = n
  /\ last (w :: epoch_states train_epoch sched_step n e w) = Some w'.
Proof.
  revert e l w. induction n as [|n IH]; intros e l w; simpl.
  - intros H; inversion H; auto.
  - destruct (epoch_body _ _ _ _) as [[[]|x] w1] eqn:E; [|discriminate].
    intros H. apply IH in H as [Hlen Hlast]. simpl. rewrite Hlen. split; [reflexivity|].
    exact Hlast.
Qed.

End Invariant.

(** A fresh trainer starts from [best_val = +infinity], recorded at epoch 0. *)
Lemma new_trainer_best c n opt sched :
  best_val (new_trainer c n opt sched) = infinity
  /\ epoch_of_best_val (new_trainer c n opt sched) = 0
  /\ not_above infinity infinity.
Proof. repeat split. Qed.

(** X12: within one pass of the loop over the epochs (no checkpoint is
    loaded in between), started from any state whose [best_val] is a number
    (the [+infinity] of a fresh trainer is one), every later [best_val] is at
    most every earlier one, and after each epoch [epoch_of_best_val] is the
    last epoch of the pass at which [best_val] strictly decreased (its
    starting value when there was none); the state the loop ends in is the
    last of these states. *)
Theorem best_val_monotone_and_epoch_tracked
    (train_epoch : nat -> trainer -> epoch_outcome)
    (sched_step : scheduler -> scheduler) (n : nat) (e : Z) (w : world) :
  not_above (best_val (self w)) (best_val (self w)) ->
  let ws := epoch_states train_epoch sched_step n e w in
  (forall i j wi wj,
      (i <= j)%nat ->
      (w :: ws) !! i = Some wi -> (w :: ws) !! j = Some wj ->
      not_above (best_val (self wj)) (best_val (self wi)))
  /\ (forall k wk,
        ws !! k = Some wk ->
        epoch_of_best_val (self wk)
        = last_decrease (best_val (self w)) (epoch_of_best_val (self w))
            (best_trace (take (S k) ws)))
  /\ (forall l e' w',
        epoch_loop train_epoch sched_step n e l w = (Ok tt, e', w') ->
        last (w :: ws) = Some w').
Proof.
  intros Hw ws. split; [|split].
  - intros i j wi wj. apply epoch_states_monotone. exact Hw.
  - intros k wk. apply epoch_states_tracks.
  - intros l e' w' H. eapply epoch_loop_states. exact H.
Qed.

Lemma best_val_monotone_and_epoch_tracked_witness :
  not_above infinity infinity
  /\ exists wk,
       epoch_states Demo.steady_actor Demo.step 3 1 (Demo.fresh 1) !! 2%nat = Some wk
       /\ epoch_of_best_val (self wk) = 1.
Proof.
  split; [reflexivity|].
  destruct (epoch_states Demo.steady_actor Demo.step 3 1 (Demo.fresh 1) !! 2%nat)
    as [wk|] eqn:E; [|vm_compute in E; discriminate].
  exists wk. split; [reflexivity|].
  destruct (best_val_monotone_and_epoch_tracked Demo.steady_actor Demo.step 3 1
              (Demo.fresh 1) eq_refl) as (_ & H & _).
  rewrite (H 2%nat wk E). vm_compute. reflexivity.
Defined.

(** C5 (the code departs from the claim): a run resumed at epoch 9998 and
    trained to epoch 10000 with [load_latest] set, whose validation scores
    0.375 at epoch 9999 and 0.25 at epoch 10000.  The first pass of the loop
    over the attempts ends with [best_val = 0.25], recorded at epoch 10000.
    The second pass calls [load_checkpoint()] again, which resolves to the
    checkpoint of epoch 9999, the last in the order of the names; epoch
    10000 is redone without validation and [train] returns with
    [best_val = 0.375] and [epoch_of_best_val = 9999]: [best_val] has gone
    up during the run, and [epoch_of_best_val] is not the epoch at which it
    last went down. *)
Theorem train_reload_raises_best_val :
  let actor := Demo.validating_twice_actor in
  let w0 := Demo.at_epoch 9998 (Demo.fresh 5) in
  let w1 := with_self (with_just_started true (self w0)) w0 in
  let pass1 := attempt actor Demo.step id 10000 true None (-1) w1 in
  let r := train actor Demo.step id 10000 true true None w0 in
  fst (fst pass1) = Ok tt
  /\ epoch (self (snd pass1)) = 10000
  /\ best_val (self (snd pass1)) = 0.25%float
  /\ epoch_of_best_val (self (snd pass1)) = 10000
  /\ resolve_checkpoint id CkNone (self (snd pass1)) (disk (snd pass1))
     = Resolved "ws/run/GLUNet_ep9999.pth.tar" true
  /\ tries actor Demo.step id num_tries 10000 true true None (-1) w1
     = tries actor Demo.step id 1 10000 true true None (snd (fst pass1)) (snd pass1)
  /\ fst r = Ok tt
  /\ epoch (self (snd r)) = 10000
  /\ best_val (self (snd r)) = 0.375%float
  /\ epoch_of_best_val (self (snd r)) = 9999
  /\ PrimFloat.ltb (best_val (self (snd pass1))) (best_val (self (snd r))) = true.
Proof. vm_compute. repeat split. Qed.

(** ** Round trip *)


(** A numbered checkpoint is found again by its epoch number. *)
Lemma resolve_by_epoch expanduser loader fs (t : trainer) :
  directory_of loader = directory_of t ->
  net_type (net loader) = net_type (net t) ->
  resolve_checkpoint expanduser (CkInt (epoch t)) loader fs
  = Resolved (file_path None t) true.
Proof. intros Hd Hn. simpl. rewrite Hd, Hn. reflexivity. Qed.


Lemma none_scheduler_breaks_save_and_load_witness :
  save_checkpoint None Demo.no_sched_over_saves
  = (Raise (AttributeError "state_dict"), Demo.no_sched_over_saves)
  /\ exists x w',
       load_checkpoint id CkNone None None None false Demo.no_sched_over_saves
       = (Raise x, w').
Proof.
  destruct (none_scheduler_breaks_save_and_load Demo.step id
              Demo.no_sched_over_saves eq_refl) as (_ & Hs & Hl).
  split; [apply Hs|].
  apply (Hl CkNone None None None false "ws/run/GLUNet_ep9999.pth.tar" true);
    vm_compute; reflexivity.
Defined.

(** ** Atomic saves *)

Lemma append_assoc a b c : (a +:+ b) +:+ c = a +:+ b +:+ c.
Proof.
  induction a as [|x a IH]; [reflexivity|].
  rewrite !append_cons, IH. reflexivity.
Qed.

Lemma last_char_some d s : exists x, last_char (String d s) = Some x.
Proof.
  revert d. induction s as [|e s IH]; intros d; [exists d; reflexivity|].
  destruct (IH e) as [x Hx]. exists x. exact Hx.
Qed.

Lemma last_char_cons c s :
  last_char (String c s) = match last_char s with Some d => Some d | None => Some c end.
Proof.
  destruct s as [|d s]; [reflexivity|].
  change (last_char (String c (String d s))) with (last_char (String d s)).
  destruct (last_char_some d s) as [x ->]. reflexivity.
Qed.

Lemma last_char_app a b :
  last_char (a +:+ b)
  = match last_char b with Some c => Some c | None => last_char a end.
Proof.
  induction a as [|x a IH].
  - rewrite append_nil. destruct (last_char b); reflexivity.
  - rewrite append_cons, !last_char_cons, IH.
    destruct (last_char b); [reflexivity|]. reflexivity.
Qed.

Lemma fnmatch_star pat s :
  Py.fnmatch (String "*" pat) s
  = Py.fnmatch pat s
    || match s with
       | EmptyString => false
       | String _ s' => Py.fnmatch (String "*" pat) s'
       end.
Proof. destruct s; reflexivity. Qed.

Lemma fnmatch_literal c pat s :
  Ascii.eqb c "*" = false ->
  Py.fnmatch (String c pat) s
  = match s with
    | String d s' => Ascii.eqb c d && Py.fnmatch pat s'
    | EmptyString => false
    end.
Proof. intros H. simpl. rewrite H. reflexivity. Qed.

(** A name matched by [p1 p2] ends with a block matched by [p2]. *)
Lemma fnmatch_app p1 p2 s :
  Py.fnmatch (p1 +:+ p2) s = true ->
  exists a b, s = a +:+ b /\ Py.fnmatch p2 b = true.
Proof.
  revert s. induction p1 as [|c p1 IH]; intros s.
  - rewrite append_nil. intros H. exists "", s. auto.
  - rewrite append_cons. destruct (Ascii.eqb c "*") eqn:Hc.
    + apply Ascii.eqb_eq in Hc. subst c.
      induction s as [|d s IHs]; rewrite fnmatch_star, orb_true_iff; intros [H|H].
      * apply IH, H.
      * discriminate.
      * apply IH, H.
      * destruct (IHs H) as (a & b & -> & Hb). exists (String d a), b. auto.
    + rewrite (fnmatch_literal _ _ _ Hc). destruct s as [|d s]; [discriminate|].
      rewrite andb_true_iff. intros [_ H].
      destruct (IH _ H) as (a & b & -> & Hb). exists (String d a), b. auto.
Qed.

Lemma strip_prefix_spec pre p name :
  Py.strip_prefix pre p = Some name -> p = pre +:+ name.
Proof.
  revert p. induction pre as [|a pre IH]; intros p; simpl.
  - intros H; inversion H. reflexivity.
  - destruct p as [|b p]; [discriminate|].
    destruct (Ascii.eqb a b) eqn:E; [|discriminate].
    apply Ascii.eqb_eq in E. subst b. intros H. rewrite append_cons, (IH _ H).
    reflexivity.
Qed.

Lemma fnmatch_single c b :
  Ascii.eqb c "*" = false -> Py.fnmatch (String c "") b = true -> b = String c "".
Proof.
  intros Hc. rewrite (fnmatch_literal _ _ _ Hc).
  destruct b as [|x b]; [discriminate|].
  rewrite andb_true_iff. intros [Hx Hb].
  apply Ascii.eqb_eq in Hx. subst x.
  destruct b; [reflexivity | discriminate].
Qed.

(** A path listed for a pattern that ends in [.pth.tar] ends in [r]. *)
Lemma matches_pth_tar dir pre p :
  FS.matches dir (pre +:+ ".pth.tar") p = true -> last_char p = Some "r"%char.
Proof.
  unfold FS.matches, Py.entry_of.
  destruct (Py.strip_prefix _ _) as [name|] eqn:E; [|discriminate].
  destruct (_ || _); [discriminate|].
  rewrite andb_true_iff. intros [H _].
  apply strip_prefix_spec in E. subst p.
  change (pre +:+ ".pth.tar") with (pre +:+ ".pth.ta" +:+ "r") in H.
  rewrite <- append_assoc in H.
  apply fnmatch_app in H as (a & b & -> & Hb).
  apply fnmatch_single in Hb; [|reflexivity]. subst b.
  rewrite !last_char_app. reflexivity.
Qed.

Lemma insert_sorted_In x y l : In y (Py.insert_sorted x l) -> y = x \/ In y l.
Proof.
  induction l as [|z l IH]; simpl.
  - intros [H|[]]; auto.
  - destruct (String.leb x z); simpl.
    + intros [H|[H|H]]; auto.
    + intros [H|H]; auto. destruct (IH H); auto.
Qed.

Lemma sorted_In y l : In y (Py.sorted l) -> In y l.
Proof.
  induction l as [|x l IH]; simpl; [auto|].
  intros H. apply insert_sorted_In in H as [H|H]; auto.
Qed.

Lemma last_In {A} (l : list A) x : last l = Some x -> In x l.
Proof.
  intros H. apply last_Some in H as [l' ->]. apply in_or_app. right. left. reflexivity.
Qed.

Lemma tmp_file_path_last name t : last_char (tmp_file_path name t) = Some "p"%char.
Proof. destruct name; unfold tmp_file_path; rewrite !last_char_app; reflexivity. Qed.

Lemma file_path_last name t : last_char (file_path name t) = Some "r"%char.
Proof. destruct name; unfold file_path; rewrite !last_char_app; reflexivity. Qed.

Lemma tmp_is_not_final name t name' t' : tmp_file_path name t <> file_path name' t'.
Proof.
  intros H. apply (f_equal last_char) in H.
  rewrite tmp_file_path_last, file_path_last in H. discriminate.
Qed.

Section Latest.
Variable expanduser : string -> string.

(** What [load_checkpoint()] resolves to is a listed file whose name ends
    in [.pth.tar]. *)
Lemma resolve_latest_last loader fs p resume :
  resolve_checkpoint expanduser CkNone loader fs = Resolved p resume ->
  last_char p = Some "r"%char.
Proof.
  simpl. destruct (last _) as [q|] eqn:E; [|discriminate].
  intros H; inversion H; subst q.
  apply last_In, sorted_In in E. unfold FS.glob in E.
  apply filter_In in E as [_ E]. unfold numbered_pattern in E.
  change (net_type (net loader) +:+ "_ep*.pth.tar")
    with (net_type (net loader) +:+ "_ep*" +:+ ".pth.tar") in E.
  rewrite <- append_assoc in E. eapply matches_pth_tar, E.
Qed.
End Latest.

(** The two last operations of a save, observed from outside. *)
Lemma visible_save_tail c tmp final fs fs' :
  visible_during [TorchSave c tmp; Rename tmp final] fs fs' ->
  forall p, p <> tmp ->
    files fs' !! p = files fs !! p
    \/ (p = final /\ files fs' !! p = Some (Whole c)).
Proof.
  intros H p Hp. inversion H as [| |op ops f0 fs1 f1 Hex Hvis]; subst.
  - left; reflexivity.
  - left. simpl. apply lookup_insert_ne. congruence.
  - simpl in Hex. inversion Hex; subst fs1. clear Hex.
    inversion Hvis as [| |op ops f0 fs2 f1 Hex2 Hvis2]; subst.
    + left. simpl. apply lookup_insert_ne. congruence.
    + simpl in Hex2. rewrite lookup_insert_eq in Hex2. inversion Hex2; subst fs2.
      inversion Hvis2; subst. simpl.
      destruct (decide (p = final)) as [->|Hne].
      * right. split; [reflexivity|]. apply lookup_insert_eq.
      * left. rewrite lookup_insert_ne by congruence.
        rewrite lookup_delete_ne by congruence.
        apply lookup_insert_ne. congruence.
Qed.

Lemma visible_save name t s fs fs' :
  visible_during (save_ops name t s fs) fs fs' ->
  forall p, p <> tmp_file_path name t ->
    files fs' !! p = files fs !! p
    \/ (p = file_path name t /\ files fs' !! p = Some (Whole (checkpoint_state t s))).
Proof.
  unfold save_ops. destruct (FS.exists_ _ _); simpl app.
  - apply visible_save_tail.
  - intros H. inversion H as [| |op ops f0 fs1 f1 Hex Hvis]; subst.
    + left; reflexivity.
    + simpl in Hex. inversion Hex; subst fs1.
      apply (visible_save_tail _ _ _ _ _ Hvis).
Qed.

(** [format_04d] never gives fewer than four characters. *)
Lemma length_append a b : String.length (a +:+ b) = (String.length a + String.length b)%nat.
Proof. induction a as [|c a IH]; [reflexivity|]. rewrite append_cons. simpl. rewrite IH. reflexivity. Qed.

Lemma length_zeros k : String.length (Py.zeros k) = k.
Proof. induction k; simpl; congruence. Qed.

Lemma format_04d_width z : (4 <= String.length (Py.format_04d z))%nat.
Proof.
  unfold Py.format_04d. cbv zeta. rewrite !length_append, length_zeros. lia.
Qed.

Lemma format_04d_below_10000 e :
  0 <= e < 10000 -> Py.format_04d e = four_digits e.
Proof.
  intros He.
  assert (H : forallb (fun n => String.eqb (Py.format_04d (Z.of_nat n))
                                  (four_digits (Z.of_nat n)))
                (seq 0 (Z.to_nat 10000)) = true) by (vm_compute; reflexivity).
  rewrite forallb_forall in H.
  specialize (H (Z.to_nat e)). rewrite Z2Nat.id in H by lia.
  apply String.eqb_eq, H, in_seq. lia.
Qed.

(** A save that runs to its end leaves the whole checkpoint under the final
    name and nothing under the temporary one, and its last state is one of
    the visible ones. *)
Lemma save_checkpoint_completes name w s :
  lr_scheduler (self w) = Some s ->
  exists fs',
    save_checkpoint name w = (Ok tt, with_disk fs' w)
    /\ visible_during (save_ops name (self w) s (disk w)) (disk w) fs'
    /\ files fs' !! file_path name (self w)
       = Some (Whole (checkpoint_state (self w) s))
    /\ files fs' !! tmp_file_path name (self w) = None.
Proof.
  intros H. destruct (save_checkpoint_ok name w s H) as [ds Hok].
  eexists. split; [exact Hok|]. split; [|split].
  - revert Hok. unfold save_checkpoint, save_ops. munfold. rewrite H.
    destruct (FS.exists_ _ _); simpl; munfold; rewrite lookup_insert_eq; simpl;
      intros Hok; inversion Hok; subst ds.
    + eapply vis_next; [reflexivity|].
      eapply vis_next; [simpl; rewrite lookup_insert_eq; reflexivity|].
      apply vis_here.
    + eapply vis_next; [reflexivity|].
      eapply vis_next; [reflexivity|].
      eapply vis_next; [simpl; rewrite lookup_insert_eq; reflexivity|].
      apply vis_here.
  - simpl. unfold saved_files. apply lookup_insert_eq.
  - simpl. unfold saved_files.
    rewrite lookup_insert_ne by (intros E; symmetry in E; revert E; apply tmp_is_not_final).
    apply lookup_delete_eq.
Qed.


(** ** Retention and Latest, where name order is epoch order *)

Lemma run_removes_other l w r w' p :
  run_ops (map Remove l) w = (r, w') ->
  ~ In p l ->
  files (disk w') !! p = files (disk w) !! p.
Proof.
  revert w. induction l as [|x l IH]; intros w; simpl.
  - unfold ret. intros H _. inversion H. reflexivity.
  - unfold bind, run_op. simpl.
    destruct (files (disk w) !! x) eqn:E.
    + intros H Hp. rewrite (IH _ H) by tauto. simpl.
      apply lookup_delete_ne. tauto.
    + intros H _. inversion H. reflexivity.
Qed.

Lemma take_In {A} (x : A) n l : In x (take n l) -> In x l.
Proof.
  revert n. induction l as [|y l IH]; intros [|n]; simpl; try tauto.
  intros [H|H]; eauto.
Qed.

Lemma slice_to_neg_In {A} (x : A) l k : In x (Py.slice_to_neg l k) -> In x l.
Proof. unfold Py.slice_to_neg. destruct (_ <? _); apply take_In. Qed.

Lemma insert_sorted_length x l :
  length (Py.insert_sorted x l) = S (length l).
Proof.
  induction l as [|y l IH]; simpl; [reflexivity|].
  destruct (String.leb x y); simpl; congruence.
Qed.

Lemma sorted_length l : length (Py.sorted l) = length l.
Proof.
  induction l as [|x l IH]; simpl; [reflexivity|].
  rewrite insert_sorted_length. congruence.
Qed.

Lemma slice_to_neg_short {A} (l : list A) k :
  Z.of_nat (length l) <= k -> Py.slice_to_neg l k = [].
Proof.
  intros H. unfold Py.slice_to_neg.
  destruct (- k <? 0) eqn:E.
  - replace (Z.to_nat _) with 0%nat by lia. reflexivity.
  - apply Z.ltb_ge in E. replace (Z.to_nat (- k)) with 0%nat by lia. reflexivity.
Qed.

Lemma strip_prefix_app pre s : Py.strip_prefix pre (pre +:+ s) = Some s.
Proof.
  induction pre as [|c pre IH]; [reflexivity|].
  rewrite append_cons. simpl. rewrite Ascii.eqb_refl. exact IH.
Qed.

(** A class name holds no [*], so it matches itself and nothing else. *)
Lemma fnmatch_same_prefix nt pat name :
  Py.str_in "*" nt = false ->
  Py.fnmatch (nt +:+ pat) (nt +:+ name) = Py.fnmatch pat name.
Proof.
  induction nt as [|c nt IH]; [reflexivity|].
  rewrite str_in_cons, orb_false_iff. intros [Hc Hnt].
  rewrite !append_cons.
  assert (Hne : Ascii.eqb c "*" = false).
  { apply Ascii.eqb_neq. intros ->. simpl in Hc.
    destruct (ascii_dec "*" "*"); [destruct nt; discriminate | congruence]. }
  rewrite (fnmatch_literal _ _ _ Hne), Ascii.eqb_refl. simpl. apply IH, Hnt.
Qed.

Lemma best_is_not_numbered t :
  Py.str_in "*" (net_type (net t)) = false ->
  FS.matches (directory_of t) (numbered_pattern t) (file_path (Some "model_best") t)
  = false.
Proof.
  intros H. unfold FS.matches, Py.entry_of, file_path, numbered_pattern.
  rewrite <- (append_assoc (directory_of t) "/"), strip_prefix_app.
  destruct (_ || _); [reflexivity|].
  rewrite (fnmatch_same_prefix _ _ _ H). reflexivity.
Qed.

(** Pruning never removes the best checkpoint of the trainer. *)
Lemma delete_old_checkpoints_keeps_best w r w' :
  Py.str_in "*" (net_type (net (self w))) = false ->
  delete_old_checkpoints w = (r, w') ->
  files (disk w') !! file_path (Some "model_best") (self w)
  = files (disk w) !! file_path (Some "model_best") (self w).
Proof.
  intros Hnt. unfold delete_old_checkpoints.
  unfold bind at 1. unfold get_self at 1. unfold bind at 1. unfold get_disk at 1.
  intros H. apply (run_removes_other _ _ _ _ _ H).
  intros Hin. apply slice_to_neg_In, sorted_In, sorted_In in Hin.
  unfold FS.glob in Hin. apply filter_In in Hin as [_ Hin].
  rewrite (best_is_not_numbered _ Hnt) in Hin. discriminate.
Qed.

(** With no more numbered checkpoints than [keep_last_checkpoints], pruning
    does nothing. *)
Lemma delete_old_checkpoints_few w :
  Z.of_nat (length (FS.glob (directory_of (self w)) (numbered_pattern (self w))
                      (disk w)))
  <= keep_last_checkpoints (cfg (self w)) ->
  delete_old_checkpoints w = (Ok tt, w).
Proof.
  intros H. unfold delete_old_checkpoints.
  unfold bind at 1. unfold get_self at 1. unfold bind at 1. unfold get_disk at 1.
  rewrite slice_to_neg_short; [reflexivity|].
  rewrite !sorted_length. exact H.
Qed.
Lemma string_compare_refl s : String.compare s s = Eq.
Proof. apply String_as_OT.cmp_eq. reflexivity. Qed.

Lemma string_leb_refl s : String.leb s s = true.
Proof. unfold String.leb. rewrite string_compare_refl. reflexivity. Qed.

Lemma string_leb_trans x y z :
  String.leb x y = true -> String.leb y z = true -> String.leb x z = true.
Proof.
  unfold String.leb.
  destruct (String.compare x y) eqn:Exy; try discriminate; intros _;
    destruct (String.compare y z) eqn:Eyz; try discriminate; intros _.
  - apply String_as_OT.cmp_eq in Exy, Eyz. subst. rewrite string_compare_refl. reflexivity.
  - apply String_as_OT.cmp_eq in Exy. subst. rewrite Eyz. reflexivity.
  - apply String_as_OT.cmp_eq in Eyz. subst. rewrite Exy. reflexivity.
  - apply String_as_OT.cmp_lt in Exy, Eyz.
    pose proof (String_as_OT.lt_trans _ _ _ Exy Eyz) as H.
    apply String_as_OT.cmp_lt in H. unfold String_as_OT.cmp in H. rewrite H. reflexivity.
Qed.

Lemma insert_sorted_elem x y l : In y (Py.insert_sorted x l) <-> y = x \/ In y l.
Proof.
  split; [apply insert_sorted_In|].
  induction l as [|z l IH]; simpl.
  - intros [->|[]]; auto.
  - destruct (String.leb x z); simpl; intros [->|[->|H]]; auto.
Qed.

Lemma insert_sorted_strongly x l :
  StronglySorted (fun a b => String.leb a b = true) l ->
  StronglySorted (fun a b => String.leb a b = true) (Py.insert_sorted x l).
Proof.
  induction 1 as [|y l Hl IH Hy]; simpl.
  - repeat constructor.
  - destruct (String.leb x y) eqn:E.
    + constructor; [constructor; assumption|].
      constructor; [exact E|].
      rewrite Forall_forall in *. intros z Hz. apply list_elem_of_In in Hz.
      eapply string_leb_trans; [exact E|]. apply Hy, list_elem_of_In, Hz.
    + constructor; [exact IH|].
      rewrite Forall_forall in *. intros z Hz. apply list_elem_of_In in Hz.
      apply insert_sorted_elem in Hz as [->|Hz].
      * destruct (String.leb_total x y) as [H|H]; congruence.
      * apply Hy, list_elem_of_In, Hz.
Qed.

Lemma sorted_strongly l :
  StronglySorted (fun a b => String.leb a b = true) (Py.sorted l).
Proof.
  induction l as [|x l IH]; simpl; [constructor|].
  apply insert_sorted_strongly, IH.
Qed.

Lemma sorted_elem y l : In y (Py.sorted l) <-> In y l.
Proof.
  induction l as [|x l IH]; simpl; [tauto|].
  rewrite insert_sorted_elem, IH. split; intros [H|H]; auto.
Qed.

(** The last element of a sorted list is above all the others. *)
Lemma strongly_sorted_last l m :
  StronglySorted (fun a b => String.leb a b = true) l ->
  last l = Some m ->
  forall x, In x l -> String.leb x m = true.
Proof.
  induction 1 as [|y l Hl IH Hy]; [discriminate|].
  destruct l as [|z l].
  - simpl. intros H x [->|[]]. inversion H. apply string_leb_refl.
  - change (last (y :: z :: l)) with (last (z :: l)). intros H x [->|Hx].
    + rewrite Forall_forall in Hy. apply Hy, list_elem_of_In, last_In, H.
    + apply IH; assumption.
Qed.

Lemma sorted_last_max l m x :
  last (Py.sorted l) = Some m -> In x l -> String.leb x m = true.
Proof.
  intros H Hx. eapply strongly_sorted_last; [apply sorted_strongly | exact H|].
  apply sorted_elem, Hx.
Qed.

Lemma compare_same_prefix pre a b :
  String.compare (pre +:+ a) (pre +:+ b) = String.compare a b.
Proof.
  induction pre as [|c pre IH]; [reflexivity|].
  rewrite !append_cons. simpl.
  replace (Ascii.compare c c) with Eq; [exact IH|].
  symmetry. apply Ascii_as_OT.cmp_eq. reflexivity.
Qed.

Lemma digit_compare a b :
  0 <= a <= 9 -> 0 <= b <= 9 ->
  Ascii.compare (Py.digit_char a) (Py.digit_char b) = Z.compare a b.
Proof.
  intros Ha Hb.
  assert (Ha' : a = 0 \/ a = 1 \/ a = 2 \/ a = 3 \/ a = 4 \/ a = 5 \/ a = 6
                \/ a = 7 \/ a = 8 \/ a = 9) by lia.
  assert (Hb' : b = 0 \/ b = 1 \/ b = 2 \/ b = 3 \/ b = 4 \/ b = 5 \/ b = 6
                \/ b = 7 \/ b = 8 \/ b = 9) by lia.
  repeat (destruct Ha' as [-> | Ha']; [repeat (destruct Hb' as [-> | Hb']; [reflexivity|]); subst; reflexivity|]).
  subst. repeat (destruct Hb' as [-> | Hb']; [reflexivity|]); subst; reflexivity.
Qed.

Lemma four_digits_compare a b suf :
  0 <= a < 10000 -> 0 <= b < 10000 ->
  String.compare (four_digits a +:+ suf) (four_digits b +:+ suf) = Z.compare a b.
Proof.
  intros Ha Hb. unfold four_digits. rewrite !append_cons, append_nil.
  cbn [String.compare].
  rewrite !digit_compare by
    (try (split; [apply Z.div_pos; lia | apply Z.lt_succ_r, Z.div_lt_upper_bound; lia]);
     try (pose proof (Z.mod_pos_bound (a / 100) 10); pose proof (Z.mod_pos_bound (b / 100) 10);
          pose proof (Z.mod_pos_bound (a / 10) 10); pose proof (Z.mod_pos_bound (b / 10) 10);
          pose proof (Z.mod_pos_bound a 10); pose proof (Z.mod_pos_bound b 10); lia)).
  rewrite string_compare_refl.
  destruct (Z.compare_spec (a / 1000) (b / 1000));
    [destruct (Z.compare_spec (a / 100 mod 10) (b / 100 mod 10));
     [destruct (Z.compare_spec (a / 10 mod 10) (b / 10 mod 10));
      [destruct (Z.compare_spec (a mod 10) (b mod 10))|..]|..]|..];
    symmetry;
    first [apply Z.compare_eq_iff | apply Z.compare_lt_iff | apply Z.compare_gt_iff];
    Z.div_mod_to_equations; lia.
Qed.

(** Below epoch 10000 the order of the checkpoint names is the order of the
    epochs. *)
Lemma numbered_compare t e1 e2 :
  0 <= e1 < 10000 -> 0 <= e2 < 10000 ->
  String.compare (file_path None (with_epoch e1 t)) (file_path None (with_epoch e2 t))
  = Z.compare e1 e2.
Proof.
  intros H1 H2. unfold file_path, directory_of. simpl.
  rewrite !compare_same_prefix.
  rewrite !format_04d_below_10000 by assumption.
  apply four_digits_compare; assumption.
Qed.

Lemma numbered_leb t e1 e2 :
  0 <= e1 < 10000 -> 0 <= e2 < 10000 ->
  String.leb (file_path None (with_epoch e1 t)) (file_path None (with_epoch e2 t)) = true
  <-> e1 <= e2.
Proof.
  intros H1 H2. unfold String.leb. rewrite numbered_compare by assumption.
  destruct (Z.compare_spec e1 e2); split; intros; try lia; try reflexivity; discriminate.
Qed.

Section Below10000.

Variable expanduser : string -> string.

Lemma latest_is_highest_below_10000 w p r :
  all_below_10000 w ->
  resolve_checkpoint expanduser CkNone (self w) (disk w) = Resolved p r ->
  exists e,
    0 <= e < 10000 /\ p = file_path None (with_epoch e (self w))
    /\ forall e', 0 <= e' < 10000 ->
         In (file_path None (with_epoch e' (self w)))
            (FS.glob (directory_of (self w)) (numbered_pattern (self w)) (disk w)) ->
         e' <= e.
Proof.
  intros Hall. simpl.
  destruct (last _) as [m|] eqn:E; [|discriminate].
  intros H; inversion H; subst m. clear H.
  pose proof (last_In _ _ E) as Hin. apply sorted_In in Hin.
  destruct (Hall _ Hin) as (e & He & ->).
  exists e. split; [exact He|]. split; [reflexivity|].
  intros e' He' Hin'. apply (numbered_leb (self w)); try assumption.
  eapply sorted_last_max; eauto.
Qed.

End Below10000.

Lemma run_removes l w :
  NoDup l ->
  (forall q, In q l -> is_Some (files (disk w) !! q)) ->
  exists w',
    run_ops (map Remove l) w = (Ok tt, w')
    /\ (forall q, In q l -> files (disk w') !! q = None).
Proof.
  revert w. induction l as [|x l IH]; intros w Hnd Hex.
  - exists w. split; [reflexivity|]. intros q [].
  - apply NoDup_cons in Hnd as [Hx Hnd].
    destruct (Hex x (or_introl eq_refl)) as [f Hf].
    destruct (IH (with_disk (FS.remove x (disk w)) w) Hnd) as (w' & Hrun & Hgone).
    { intros q Hq. simpl. rewrite lookup_delete_ne.
      - apply Hex. right. exact Hq.
      - intros ->. apply Hx, list_elem_of_In, Hq. }
    exists w'. split.
    + simpl. unfold bind, run_op. simpl. rewrite Hf. exact Hrun.
    + intros q [<-|Hq]; [|apply Hgone, Hq].
      rewrite (run_removes_other _ _ _ _ x Hrun).
      * simpl. apply lookup_delete_eq.
      * intros Hin. apply Hx, list_elem_of_In, Hin.
Qed.

Lemma insert_sorted_NoDup x l :
  NoDup l -> ~ In x l -> NoDup (Py.insert_sorted x l).
Proof.
  induction 1 as [|y l Hy Hl IH]; simpl; intros Hx.
  - apply NoDup_singleton.
  - destruct (String.leb x y).
    + apply NoDup_cons. split; [|apply NoDup_cons; auto].
      rewrite list_elem_of_In. exact Hx.
    + apply NoDup_cons. split; [|apply IH; tauto].
      rewrite list_elem_of_In, insert_sorted_elem. intros [->|H]; [tauto|].
      apply Hy, list_elem_of_In, H.
Qed.

Lemma sorted_NoDup l : NoDup l -> NoDup (Py.sorted l).
Proof.
  induction 1 as [|x l Hx Hl IH]; simpl; [constructor|].
  apply insert_sorted_NoDup; [exact IH|].
  rewrite sorted_elem, <- list_elem_of_In. exact Hx.
Qed.

Lemma filter_NoDup (f : string -> bool) l : NoDup l -> NoDup (List.filter f l).
Proof.
  induction 1 as [|x l Hx Hl IH]; simpl; [constructor|].
  destruct (f x); [|exact IH].
  apply NoDup_cons. split; [|exact IH].
  rewrite list_elem_of_In, filter_In, <- list_elem_of_In. tauto.
Qed.

Lemma glob_NoDup dir pat fs : NoDup (FS.glob dir pat fs).
Proof. unfold FS.glob. apply filter_NoDup, NoDup_fst_map_to_list. Qed.

Lemma glob_exists dir pat fs q :
  In q (FS.glob dir pat fs) -> is_Some (files fs !! q).
Proof.
  unfold FS.glob. intros H. apply filter_In in H as [H _].
  apply list_elem_of_In, list_elem_of_fmap in H as ([k f] & -> & H).
  apply elem_of_map_to_list in H. simpl. eauto.
Qed.

Lemma strongly_sorted_app (R : string -> string -> Prop) l1 l2 x y :
  StronglySorted R (l1 ++ l2) -> In x l1 -> In y l2 -> R x y.
Proof.
  induction l1 as [|z l1 IH]; simpl; [tauto|].
  intros H [->|Hx] Hy; apply StronglySorted_inv in H as [Hs Hf].
  - rewrite Forall_forall in Hf. apply Hf, list_elem_of_In, in_or_app. auto.
  - apply IH; assumption.
Qed.

Lemma slice_to_neg_take {A} (l : list A) k :
  1 <= k -> Py.slice_to_neg l k = take (length l - Z.to_nat k) l.
Proof.
  intros H. unfold Py.slice_to_neg.
  replace (- k <? 0) with true by (symmetry; apply Z.ltb_lt; lia).
  f_equal. lia.
Qed.

(** Below epoch 10000, pruning with [keep_last_checkpoints >= 1] removes the
    numbered checkpoints of the lowest epochs and keeps, untouched, the
    [keep_last_checkpoints] of the highest epochs (all of them when there are
    fewer). *)
Lemma prune_keeps_highest_below_10000 w :
  all_below_10000 w ->
  1 <= keep_last_checkpoints (cfg (self w)) ->
  let l := FS.glob (directory_of (self w)) (numbered_pattern (self w)) (disk w) in
  exists w' removed kept,
    delete_old_checkpoints w = (Ok tt, w')
    /\ (forall q, In q l <-> In q removed \/ In q kept)
    /\ length kept = Nat.min (Z.to_nat (keep_last_checkpoints (cfg (self w)))) (length l)
    /\ (forall q, In q removed -> files (disk w') !! q = None)
    /\ (forall q, ~ In q removed -> files (disk w') !! q = files (disk w) !! q)
    /\ (forall e1 e2,
          0 <= e1 < 10000 -> 0 <= e2 < 10000 ->
          In (file_path None (with_epoch e1 (self w))) removed ->
          In (file_path None (with_epoch e2 (self w))) kept ->
          e1 < e2).
Proof.
  intros Hall Hk l.
  set (s := Py.sorted (Py.sorted l)).
  set (n := (length s - Z.to_nat (keep_last_checkpoints (cfg (self w))))%nat).
  assert (Hs : forall q, In q s <-> In q l).
  { intros q. unfold s. rewrite !sorted_elem. reflexivity. }
  assert (Hnd : NoDup s) by (apply sorted_NoDup, sorted_NoDup, glob_NoDup).
  assert (Hsplit : s = (take n s ++ drop n s)%list) by (symmetry; apply take_drop).
  assert (Hdel : delete_old_checkpoints w = run_ops (map Remove (take n s)) w).
  { unfold delete_old_checkpoints, bind, get_self, get_disk.
    rewrite slice_to_neg_take by exact Hk. reflexivity. }
  destruct (run_removes (take n s) w) as (w' & Hrun & Hgone).
  { rewrite Hsplit in Hnd. apply NoDup_app in Hnd. tauto. }
  { intros q Hq. apply (glob_exists (directory_of (self w)) (numbered_pattern (self w))).
    apply Hs. eapply take_In, Hq. }
  exists w', (take n s), (drop n s). split; [congruence|].
  split; [|split; [|split; [exact Hgone | split]]].
  - intros q. rewrite <- Hs. rewrite Hsplit at 1. rewrite in_app_iff. reflexivity.
  - rewrite length_drop. unfold n, s. rewrite !sorted_length. lia.
  - intros q Hq. eapply run_removes_other; eauto.
  - intros e1 e2 He1 He2 H1 H2.
    assert (Hle : e1 <= e2).
    { apply (numbered_leb (self w)); try assumption.
      eapply (strongly_sorted_app (fun a b => String.leb a b = true));
        [|exact H1|exact H2].
      rewrite <- Hsplit. apply sorted_strongly. }
    assert (e1 <> e2); [|lia].
    intros ->. rewrite Hsplit in Hnd. apply NoDup_app in Hnd as (_ & Hd & _).
    apply (Hd _ (proj2 (list_elem_of_In _ _) H1)), list_elem_of_In, H2.
Qed.

(** ** No torn file under a final name *)

(** Final names never show a torn file: the property passes from the disk
    before a save to every disk visible during it. *)
Lemma save_keeps_finals_whole name t s fs fs' :
  finals_whole fs ->
  visible_during (save_ops name t s fs) fs fs' ->
  finals_whole fs'.
Proof.
  intros Hfs Hvis p f Hp Hlast.
  destruct (visible_save _ _ _ _ _ Hvis p) as [H|[_ H]].
  - intros ->. rewrite tmp_file_path_last in Hlast. discriminate.
  - rewrite H in Hp. eapply Hfs; eauto.
  - rewrite H in Hp. inversion Hp. eauto.
Qed.

Lemma remove_keeps_finals_whole l w r w' :
  finals_whole (disk w) ->
  run_ops (map Remove l) w = (r, w') ->
  finals_whole (disk w').
Proof.
  revert w. induction l as [|x l IH]; intros w Hw; simpl.
  - unfold ret. intros H; inversion H; subst. exact Hw.
  - unfold bind, run_op. simpl. destruct (files (disk w) !! x) eqn:E.
    + apply IH. intros p g Hp. simpl in Hp.
      apply lookup_delete_Some in Hp as [_ Hp]. eapply Hw, Hp.
    + intros H; inversion H; subst. exact Hw.
Qed.

Lemma delete_old_checkpoints_keeps_finals_whole w r w' :
  finals_whole (disk w) ->
  delete_old_checkpoints w = (r, w') ->
  finals_whole (disk w').
Proof.
  intros Hw. unfold delete_old_checkpoints, bind, get_self, get_disk.
  apply remove_keeps_finals_whole, Hw.
Qed.

(** C2: [save_checkpoint], called on a trainer with a scheduler, is the run
    of the operations of [save_ops]: it writes the state to a temporary file
    in the checkpoint directory and then renames it to the final name, built
    from the net type and the given name, or from the net type and the epoch
    padded to at least four digits; it returns with the whole checkpoint
    under the final name and nothing under the temporary one.  Whenever the
    disk is observed while these operations run, also when the writer has
    died half-way, every path other than the temporary one holds what it
    held before the save or the whole new checkpoint, and what
    [load_checkpoint()] resolves to is such a path; so a directory whose
    final names held whole files before the save shows whole files only
    under its final names, and to [load_checkpoint()]. *)
Theorem save_checkpoint_atomic
    (expanduser : string -> string) (name : option string) (w : world)
    (s : scheduler) :
  lr_scheduler (self w) = Some s ->
  let t := self w in
  let fs := disk w in
  save_checkpoint name w = run_ops (save_ops name t s fs) w
  /\ (exists fs_end,
        save_checkpoint name w = (Ok tt, with_disk fs_end w)
        /\ visible_during (save_ops name t s fs) fs fs_end
        /\ files fs_end !! file_path name t = Some (Whole (checkpoint_state t s))
        /\ files fs_end !! tmp_file_path name t = None)
  /\ (exists pre,
        (pre = [] \/ pre = [MakeDirs (directory_of t)])
        /\ save_ops name t s fs
           = (pre ++ [TorchSave (checkpoint_state t s) (tmp_file_path name t);
                      Rename (tmp_file_path name t) (file_path name t)])%list)
  /\ tmp_file_path name t
     = directory_of t +:+ "/" +:+ net_type (net t)
         +:+ match name with
             | Some n => "_" +:+ n
             | None => "_ep" +:+ Py.format_04d (epoch t)
             end +:+ ".tmp"
  /\ file_path name t
     = directory_of t +:+ "/" +:+ net_type (net t)
         +:+ match name with
             | Some n => "_" +:+ n
             | None => "_ep" +:+ Py.format_04d (epoch t)
             end +:+ ".pth.tar"
  /\ (4 <= String.length (Py.format_04d (epoch t)))%nat
  /\ forall fs',
       visible_during (save_ops name t s fs) fs fs' ->
       (forall p, p <> tmp_file_path name t ->
          files fs' !! p = files fs !! p
          \/ (p = file_path name t
              /\ files fs' !! p = Some (Whole (checkpoint_state t s))))
       /\ (forall loader p resume,
             resolve_checkpoint expanduser CkNone loader fs' = Resolved p resume ->
             files fs' !! p = files fs !! p
             \/ files fs' !! p = Some (Whole (checkpoint_state t s)))
       /\ (finals_whole fs ->
           finals_whole fs'
           /\ forall loader p resume,
                resolve_checkpoint expanduser CkNone loader fs' = Resolved p resume ->
                exists c, files fs' !! p = Some (Whole c)).
Proof.
  intros Hs t fs. subst t fs.
  split; [|split; [|split; [|split; [|split; [|split]]]]].
  - unfold save_checkpoint.
    unfold bind at 1. unfold get_self at 1. unfold bind at 1. unfold get_disk at 1.
    rewrite Hs. reflexivity.
  - apply save_checkpoint_completes, Hs.
  - unfold save_ops. destruct (FS.exists_ _ _).
    + exists []. split; [left|]; reflexivity.
    + exists [MakeDirs (directory_of (self w))]. split; [right|]; reflexivity.
  - destruct name; reflexivity.
  - destruct name; reflexivity.
  - apply format_04d_width.
  - intros fs' Hvis. split; [|split].
    + apply (visible_save _ _ _ _ _ Hvis).
    + intros loader p resume Hr.
      apply resolve_latest_last in Hr.
      destruct (visible_save _ _ _ _ _ Hvis p) as [H|[_ H]]; auto.
      intros ->. rewrite tmp_file_path_last in Hr. discriminate.
    + intros Hfs.
      pose proof (save_keeps_finals_whole _ _ _ _ _ Hfs Hvis) as Hfs'.
      split; [exact Hfs'|].
      intros loader p resume Hr.
      pose proof (resolve_latest_last _ _ _ _ _ Hr) as Hlast.
      simpl in Hr. destruct (last _) as [q|] eqn:E; [|discriminate].
      inversion Hr; subst q.
      apply last_In, sorted_In, glob_exists in E as [f Hf].
      destruct (Hfs' _ _ Hf Hlast) as [c ->]. eauto.
Qed.

Lemma save_checkpoint_atomic_witness :
  files Demo.crashed_disk !! "ws/run/GLUNet_ep0003.tmp"
  = Some (Torn (checkpoint_state (self (Demo.at_epoch 3 (Demo.fresh 1))) Demo.sched) 10)
  /\ files Demo.crashed_disk !! "ws/run/GLUNet_ep0003.pth.tar" = None
  /\ exists fs_end,
       save_checkpoint None (Demo.at_epoch 3 (Demo.fresh 1))
       = (Ok tt, with_disk fs_end (Demo.at_epoch 3 (Demo.fresh 1)))
       /\ exists c, files fs_end !! "ws/run/GLUNet_ep0003.pth.tar" = Some (Whole c).
Proof.
  split; [vm_compute; reflexivity|].
  destruct (save_checkpoint_atomic id None (Demo.at_epoch 3 (Demo.fresh 1))
              Demo.sched eq_refl)
    as (_ & (fs_end & Hsave & _ & Hfinal & _) & _ & _ & _ & _ & Hvis).
  split.
  - destruct (Hvis Demo.crashed_disk) as (H & _ & _).
    + assert (E : save_ops None (self (Demo.at_epoch 3 (Demo.fresh 1))) Demo.sched
                    (disk (Demo.at_epoch 3 (Demo.fresh 1)))
                  = [MakeDirs "ws/run";
                     TorchSave (checkpoint_state (self (Demo.at_epoch 3 (Demo.fresh 1)))
                                  Demo.sched)
                       (tmp_file_path None (self (Demo.at_epoch 3 (Demo.fresh 1))));
                     Rename (tmp_file_path None (self (Demo.at_epoch 3 (Demo.fresh 1))))
                       (file_path None (self (Demo.at_epoch 3 (Demo.fresh 1))))])
        by (vm_compute; reflexivity).
      rewrite E. eapply vis_next; [reflexivity|]. apply vis_torn.
    + destruct (H "ws/run/GLUNet_ep0003.pth.tar") as [H1|[_ H1]].
      * vm_compute. discriminate.
      * rewrite H1. vm_compute. reflexivity.
      * exfalso. vm_compute in H1. discriminate.
  - exists fs_end. split; [exact Hsave|]. eexists. exact Hfinal.
Defined.

(** ** The model on small inputs *)

Example format_04d_examples :
  Py.format_04d 7 = "0007" /\ Py.format_04d 123 = "0123"
  /\ Py.format_04d 9999 = "9999" /\ Py.format_04d 10000 = "10000"
  /\ Py.format_04d (-1) = "-001".
Proof. repeat split. Qed.

Example sorted_example :
  Py.sorted ["N_ep9999.pth.tar"; "N_ep0002.pth.tar"; "N_ep10000.pth.tar"]
  = ["N_ep0002.pth.tar"; "N_ep10000.pth.tar"; "N_ep9999.pth.tar"].
Proof. reflexivity. Qed.

Example slice_to_neg_examples :
  Py.slice_to_neg [1; 2; 3; 4; 5] 2 = [1; 2; 3]
  /\ Py.slice_to_neg [1; 2] 3 = []
  /\ Py.slice_to_neg [1; 2] 0 = []
  /\ Py.slice_to_neg [1; 2; 3] (-1) = [1].
Proof. repeat split. Qed.

Example fnmatch_examples :
  Py.fnmatch "N_ep*.pth.tar" "N_ep0001.pth.tar" = true
  /\ Py.fnmatch "N_ep*.pth.tar" "N_model_best.pth.tar" = false
  /\ Py.fnmatch "N_ep*.pth.tar" "N_ep0001.tmp" = false
  /\ Py.fnmatch "*_ep*.pth.tar" "a_b_ep1_ep2.pth.tar" = true.
Proof. repeat split. Qed.

Example str_in_examples :
  Py.str_in "Net" "GLUNet" = true /\ Py.str_in "GLU" "GLUNet" = true
  /\ Py.str_in "" "GLUNet" = true /\ Py.str_in "GLUNet" "Net" = false.
Proof. repeat split. Qed.

(** An undisturbed run of three epochs: one numbered checkpoint is kept, the
    best checkpoint is the one of epoch 1. *)
Example train_three_epochs :
  let r := train Demo.steady_actor Demo.step id 3 false true None (Demo.fresh 1) in
  fst r = Ok tt
  /\ stdout (snd r) = [ValidationImproved infinity 0 0.5 1; FinishedTraining]
  /\ epoch (self (snd r)) = 3
  /\ epoch_of_best_val (self (snd r)) = 1
  /\ FS.glob "ws/run" "GLUNet_ep*.pth.tar" (disk (snd r)) = ["ws/run/GLUNet_ep0003.pth.tar"]
  /\ (ck_epoch <$> (match files (disk (snd r)) !! "ws/run/GLUNet_model_best.pth.tar" with
                    | Some (Whole c) => Some c | _ => None end)) = Some 1.
Proof. vm_compute. repeat split. Qed.

(** * Further properties of the trainer *)

(** ** The training loop *)

(** X1: with [fail_safe] set, [train] returns normally on every input,
    whatever [train_epoch], the loader or the saves raise, and the last
    line it prints is the closing one. *)
Theorem train_with_fail_safe_never_raises
    (train_epoch : nat -> trainer -> epoch_outcome)
    (sched_step : scheduler -> scheduler) (expanduser : string -> string)
    (max_epochs : Z) (load_latest : bool) (ign : option (list string))
    (w : world) :
  exists w',
    train train_epoch sched_step expanduser max_epochs load_latest true ign w
    = (Ok tt, w')
    /\ last (stdout w') = Some FinishedTraining.
Proof.
  unfold train, bind, modify_self.
  destruct (tries_fail_safe_returns train_epoch sched_step expanduser num_tries
              max_epochs load_latest ign (-1)
              (with_self (with_just_started true (self w)) w)) as [w' Hw'].
  rewrite Hw'. unfold print. eexists. split; [reflexivity|].
  simpl. apply last_snoc.
Qed.

(** X2: without [fail_safe], a failure of the first pass through the [try]
    block leaves [train] as that exception: the crash line is printed, the
    epoch counter is not decremented, nothing is retried and the closing
    line is not printed. *)
Theorem train_without_fail_safe_propagates
    (train_epoch : nat -> trainer -> epoch_outcome)
    (sched_step : scheduler -> scheduler) (expanduser : string -> string)
    (max_epochs : Z) (load_latest : bool) (ign : option (list string))
    (w : world) (x : exn) (e1 : Z) (w1 : world) :
  attempt train_epoch sched_step expanduser max_epochs load_latest ign (-1)
    (with_self (with_just_started true (self w)) w) = (Raise x, e1, w1) ->
  train train_epoch sched_step expanduser max_epochs load_latest false ign w
  = (Raise x, {| self := self w1; disk := disk w1;
                 stdout := stdout w1 ++ [TrainingCrashed e1];
                 calls := calls w1 |}).
Proof.
  intros H. unfold train, bind, modify_self, num_tries.
  rewrite (tries_no_fail_safe_propagates _ _ _ _ _ _ _ _ _ _ _ _ H).
  reflexivity.
Qed.

Lemma train_without_fail_safe_propagates_witness :
  train Demo.crashing_actor Demo.step id 5 false false None (Demo.fresh 1)
  = (Raise (ActorError 1),
     {| self := with_epoch 1 (with_just_started true (self (Demo.fresh 1)));
        disk := disk (Demo.fresh 1);
        stdout := [TrainingCrashed 1]; calls := 1 |}).
Proof.
  apply (train_without_fail_safe_propagates Demo.crashing_actor Demo.step id 5
           false None (Demo.fresh 1) (ActorError 1) 1
           {| self := with_epoch 1 (with_just_started true (self (Demo.fresh 1)));
              disk := disk (Demo.fresh 1); stdout := []; calls := 1 |}).
  vm_compute. reflexivity.
Defined.

(** X3: when [max_epochs] is not above the current epoch and no resume is
    asked for, [train] runs no epoch and is no error: [train_epoch] is not
    called, the disk is untouched, and the only changes are
    [just_started = True] and the closing line. *)
Theorem train_nothing_to_do
    (train_epoch : nat -> trainer -> epoch_outcome)
    (sched_step : scheduler -> scheduler) (expanduser : string -> string)
    (max_epochs : Z) (fail_safe : bool) (ign : option (list string))
    (w : world) :
  max_epochs <= epoch (self w) ->
  train train_epoch sched_step expanduser max_epochs false fail_safe ign w
  = (Ok tt, {| self := with_just_started true (self w); disk := disk w;
               stdout := stdout w ++ [FinishedTraining]; calls := calls w |}).
Proof.
  intros H. unfold train, bind, modify_self, num_tries. simpl.
  unfold attempt, ret. simpl.
  replace (Z.to_nat (max_epochs + 1 - (epoch (self w) + 1))) with 0%nat by lia.
  simpl.
  replace (Z.to_nat (max_epochs + 1 - (epoch (self w) + 1))) with 0%nat by lia.
  reflexivity.
Qed.

Lemma train_nothing_to_do_witness :
  train Demo.crashing_actor Demo.step id 0 false false None (Demo.fresh 1)
  = (Ok tt, {| self := with_just_started true (self (Demo.fresh 1));
               disk := disk (Demo.fresh 1);
               stdout := [FinishedTraining]; calls := 0 |}).
Proof.
  apply (train_nothing_to_do Demo.crashing_actor Demo.step id 0 false None
           (Demo.fresh 1)).
  vm_compute. discriminate.
Defined.

Section EpochLoop.

Variable train_epoch : nat -> trainer -> epoch_outcome.
Variable sched_step : scheduler -> scheduler.

Lemma call_train_epoch_calls w r w' :
  call_train_epoch train_epoch w = (r, w') ->
  calls w' = S (calls w) /\ epoch (self w') = epoch (self w)
  /\ disk w' = disk w.
Proof.
  unfold call_train_epoch. destruct (train_epoch _ _); intros H; inversion H;
    simpl; auto.
Qed.

Lemma step_scheduler_calls w r w' :
  step_scheduler sched_step w = (r, w') ->
  calls w' = calls w /\ epoch (self w') = epoch (self w) /\ disk w' = disk w.
Proof.
  unfold step_scheduler. munfold. destruct (lr_scheduler (self w));
    intros H; inversion H; simpl; auto.
Qed.

Lemma consider_best_calls w r w' :
  consider_best w = (r, w') ->
  calls w' = calls w /\ epoch (self w') = epoch (self w).
Proof.
  rewrite consider_best_eq.
  destruct (current_best_val (self w)) as [c|].
  - destruct (PrimFloat.ltb c (best_val (self w))).
    + intros H. apply save_checkpoint_frame in H as (-> & _ & ->). simpl. auto.
    + intros H; inversion H; subst; auto.
  - intros H; inversion H; subst; auto.
Qed.

(** The saves and the pruning at the end of the loop body leave the trainer
    and the call count as they are. *)
Lemma save_and_prune_frame (t0 : trainer) w r w' :
  (if truthy_dir (base_save_dir (cfg t0))
   then (save_checkpoint None >> delete_old_checkpoints)
   else ret tt) w = (r, w') ->
  self w' = self w /\ calls w' = calls w.
Proof.
  destruct (truthy_dir _).
  - unfold bind. destruct (save_checkpoint None w) as [[[]|x] w1] eqn:E.
    + intros H. apply delete_old_checkpoints_frame in H as (-> & _ & ->).
      apply save_checkpoint_frame in E as (-> & _ & ->). auto.
    + intros H. inversion H; subst.
      apply save_checkpoint_frame in E as (-> & _ & ->). auto.
  - unfold ret. intros H. inversion H. auto.
Qed.

(** Wherever the loop body stops, [self.epoch] is the epoch it was entered
    with, and [train_epoch] has been called exactly once. *)
Lemma epoch_body_epoch e w r w' :
  epoch_body train_epoch sched_step e w = (r, w') ->
  epoch (self w') = e /\ calls w' = S (calls w).
Proof.
  unfold epoch_body.
  unfold bind at 1. unfold modify_self at 1.
  unfold bind at 1.
  destruct (call_train_epoch _ _) as [[[]|x] w1] eqn:E1;
    apply call_train_epoch_calls in E1; simpl in E1; destruct E1 as (Hc1 & He1 & _);
    [|intros H; inversion H; subst; auto].
  unfold bind at 1.
  destruct (step_scheduler _ _) as [[[]|x] w2] eqn:E2;
    apply step_scheduler_calls in E2; destruct E2 as (Hc2 & He2 & _);
    [|intros H; inversion H; subst; split; congruence].
  unfold bind at 1.
  destruct (consider_best w2) as [[[]|x] w3] eqn:E3;
    apply consider_best_calls in E3; destruct E3 as (Hc3 & He3);
    [|intros H; inversion H; subst; split; congruence].
  unfold bind at 1. unfold modify_self at 1.
  unfold bind at 1. unfold get_self at 1. simpl self.
  intros H. apply save_and_prune_frame in H as [Hs Hc].
  rewrite Hs, Hc. simpl. split; congruence.
Qed.

Lemma epoch_body_just_started e w w' :
  epoch_body train_epoch sched_step e w = (Ok tt, w') ->
  just_started (self w') = false.
Proof.
  unfold epoch_body.
  unfold bind at 1. unfold modify_self at 1.
  unfold bind at 1.
  destruct (call_train_epoch _ _) as [[[]|x] w1]; [|discriminate].
  unfold bind at 1.
  destruct (step_scheduler _ _) as [[[]|x] w2]; [|discriminate].
  unfold bind at 1.
  destruct (consider_best w2) as [[[]|x] w3]; [|discriminate].
  unfold bind at 1. unfold modify_self at 1.
  unfold bind at 1. unfold get_self at 1. simpl self.
  intros H. apply save_and_prune_frame in H as [Hs _].
  rewrite Hs. reflexivity.
Qed.

Lemma epoch_loop_ok n e l w e' w' :
  epoch_loop train_epoch sched_step n e l w = (Ok tt, e', w') ->
  calls w' = (calls w + n)%nat
  /\ (n = 0%nat -> w' = w /\ e' = l)
  /\ ((0 < n)%nat ->
      epoch (self w') = e + Z.of_nat n - 1 /\ e' = e + Z.of_nat n - 1
      /\ just_started (self w') = false).
Proof.
  revert e l w. induction n as [|n IH]; intros e l w; simpl.
  - intros H; inversion H; subst. repeat split; try lia.
  - destruct (epoch_body _ _ _ _) as [[[]|x] w1] eqn:E; [|discriminate].
    intros H. pose proof (epoch_body_epoch _ _ _ _ E) as [He Hc].
    pose proof (epoch_body_just_started _ _ _ E) as Hj.
    apply IH in H as (Hcalls & H0 & Hpos).
    split; [lia|]. split; [lia|]. intros _.
    destruct n as [|n].
    + destruct (H0 eq_refl) as [-> ->]. repeat split; try lia; assumption.
    + destruct Hpos as (H1 & H2 & H3); [lia|]. repeat split; try lia; assumption.
Qed.

(** When the loop stops on an exception, [self.epoch] and the local
    variable [epoch] both hold the epoch that failed, one of the epochs of
    the range. *)
Lemma epoch_loop_raise n e l w x e1 w1 :
  epoch_loop train_epoch sched_step n e l w = (Raise x, e1, w1) ->
  epoch (self w1) = e1 /\ e <= e1 < e + Z.of_nat n.
Proof.
  revert e l w. induction n as [|n IH]; intros e l w; simpl; [discriminate|].
  destruct (epoch_body _ _ _ _) as [[[]|y] w2] eqn:E.
  - intros H. apply IH in H. lia.
  - intros H. inversion H; subst.
    apply epoch_body_epoch in E as [He _]. lia.
Qed.

End EpochLoop.

(** X4: a run in which no epoch fails, started without resume, trains the
    epochs [self.epoch + 1 .. max_epochs] exactly once: the second pass of
    the retry loop finds nothing left to do, [train_epoch] has been called
    once per epoch, and after at least one epoch [self.epoch = max_epochs]
    and [just_started] is back to [False]. *)
Theorem train_runs_each_epoch_once
    (train_epoch : nat -> trainer -> epoch_outcome)
    (sched_step : scheduler -> scheduler) (expanduser : string -> string)
    (max_epochs : Z) (fail_safe : bool) (ign : option (list string))
    (w : world) (e' : Z) (w' : world) :
  epoch_loop train_epoch sched_step (Z.to_nat (max_epochs - epoch (self w)))
    (epoch (self w) + 1) (-1)
    (with_self (with_just_started true (self w)) w) = (Ok tt, e', w') ->
  train train_epoch sched_step expanduser max_epochs false fail_safe ign w
  = (Ok tt, {| self := self w'; disk := disk w';
               stdout := stdout w' ++ [FinishedTraining]; calls := calls w' |})
  /\ calls w' = (calls w + Z.to_nat (max_epochs - epoch (self w)))%nat
  /\ (epoch (self w) < max_epochs ->
      epoch (self w') = max_epochs /\ just_started (self w') = false).
Proof.
  intros H. pose proof (epoch_loop_ok _ _ _ _ _ _ _ _ H) as (Hc & H0 & Hpos).
  simpl in Hc, H0.
  split; [|split; [exact Hc|]].
  - unfold train, bind, modify_self, num_tries. simpl.
    unfold attempt, ret. simpl.
    replace (max_epochs + 1 - (epoch (self w) + 1)) with (max_epochs - epoch (self w))
      by lia.
    rewrite H.
    replace (Z.to_nat (max_epochs + 1 - (epoch (self w') + 1))) with 0%nat;
      [reflexivity|].
    destruct (Z.to_nat (max_epochs - epoch (self w))) as [|k] eqn:Ek.
    + destruct (H0 eq_refl) as [-> _]. simpl. lia.
    + destruct Hpos as (He & _); [lia|]. lia.
  - intros Hlt. destruct Hpos as (He & _ & Hj); [lia|].
    split; [lia | exact Hj].
Qed.

Lemma train_runs_each_epoch_once_witness :
  exists w',
    train Demo.steady_actor Demo.step id 3 false false None (Demo.fresh 1)
    = (Ok tt, w') /\ calls w' = 3%nat.
Proof.
  destruct (epoch_loop Demo.steady_actor Demo.step
              (Z.to_nat (3 - epoch (self (Demo.fresh 1))))
              (epoch (self (Demo.fresh 1)) + 1) (-1)
              (with_self (with_just_started true (self (Demo.fresh 1)))
                 (Demo.fresh 1)))
    as [[[[]|x] e'] w'] eqn:E; [|vm_compute in E; discriminate].
  destruct (train_runs_each_epoch_once Demo.steady_actor Demo.step id 3 false
              None (Demo.fresh 1) e' w' E) as (H & Hc & _).
  eexists. split; [exact H|]. simpl. rewrite Hc. reflexivity.
Defined.

(** X5: when an epoch fails, [self.epoch] holds the number of that epoch, one
    of the range; with [fail_safe] the handler sets it back by one and, with
    no checkpoint to resume from, the next pass runs the loop again from the
    epoch that failed, on the state left in memory. *)
Theorem failed_epoch_is_redone
    (train_epoch : nat -> trainer -> epoch_outcome)
    (sched_step : scheduler -> scheduler) (expanduser : string -> string)
    (n : nat) (max_epochs : Z) (ign : option (list string))
    (w : world) (x : exn) (e1 : Z) (w1 : world) :
  epoch_loop train_epoch sched_step
    (Z.to_nat (max_epochs + 1 - (epoch (self w) + 1))) (epoch (self w) + 1)
    (-1) w = (Raise x, e1, w1) ->
  FS.glob (directory_of (self w1)) (numbered_pattern (self w1)) (disk w1) = [] ->
  let w4 := {| self := with_epoch (e1 - 1) (self w1); disk := disk w1;
               stdout := stdout w1 ++ [TrainingCrashed e1; TracebackHeader;
                                       Traceback x; Restarting];
               calls := calls w1 |} in
  epoch (self w1) = e1
  /\ epoch (self w) < e1 <= max_epochs
  /\ tries train_epoch sched_step expanduser (S n) max_epochs false true ign
       (-1) w
     = tries train_epoch sched_step expanduser n max_epochs true true ign e1 w4
  /\ attempt train_epoch sched_step expanduser max_epochs true ign e1 w4
     = epoch_loop train_epoch sched_step (Z.to_nat (max_epochs + 1 - e1)) e1 e1
         {| self := self w4; disk := disk w4;
            stdout := stdout w4 ++ [NoMatchingCheckpoint]; calls := calls w4 |}.
Proof.
  intros H Hglob w4.
  pose proof (epoch_loop_raise _ _ _ _ _ _ _ _ _ H) as [He Hr].
  split; [exact He|]. split; [lia|]. split.
  - assert (Ha : attempt train_epoch sched_step expanduser max_epochs false ign
                   (-1) w = (Raise x, e1, w1)) by exact H.
    rewrite (tries_fail_safe_retries _ _ _ _ _ _ _ _ _ _ _ _ Ha).
    unfold w4. rewrite He. reflexivity.
  - unfold attempt, load_checkpoint, resolve_checkpoint.
    unfold bind at 1. unfold get_self at 1. unfold bind at 1. unfold get_disk at 1.
    change (FS.glob (directory_of (self w4)) (numbered_pattern (self w4)) (disk w4))
      with (FS.glob (directory_of (self w1)) (numbered_pattern (self w1)) (disk w1)).
    rewrite Hglob. simpl.
    replace (e1 - 1 + 1) with e1 by lia. reflexivity.
Qed.

Lemma failed_epoch_is_redone_witness :
  exists w1,
    epoch_loop Demo.crashing_actor Demo.step 5 1 (-1) (Demo.fresh 1)
    = (Raise (ActorError 1), 1, w1)
    /\ epoch (self w1) = 1.
Proof.
  destruct (epoch_loop Demo.crashing_actor Demo.step
              (Z.to_nat (5 + 1 - (epoch (self (Demo.fresh 1)) + 1)))
              (epoch (self (Demo.fresh 1)) + 1) (-1) (Demo.fresh 1))
    as [[[[]|x] e1] w1] eqn:E; [vm_compute in E; discriminate|].
  assert (Hx : x = ActorError 1 /\ e1 = 1).
  { vm_compute in E. inversion E. auto. }
  destruct Hx as [-> ->].
  destruct (failed_epoch_is_redone Demo.crashing_actor Demo.step id 0 5 None
              (Demo.fresh 1) (ActorError 1) 1 w1 E) as (He & _).
  { vm_compute in E. inversion E. vm_compute. reflexivity. }
  exists w1. split; [exact E | exact He].
Defined.

(** ** More on loading *)

Section MoreLoading.

Variable expanduser : string -> string.

(** [load_checkpoint] on a compatible checkpoint: the field loop, then the
    rest. *)
Lemma load_checkpoint_loaded arg fields ign add lc w path resume c :
  resolve_checkpoint expanduser arg (self w) (disk w) = Resolved path resume ->
  files (disk w) !! path = Some (Whole c) ->
  Py.str_in (ck_net_type c) (net_type (net (self w))) = true ->
  load_checkpoint expanduser arg fields ign add lc w
  = (load_fields (default checkpoint_keys fields) (ignored ign add) c
     >> load_tail resume lc c (default checkpoint_keys fields))
      (announced path w).
Proof.
  intros Hr Hf Hin. enter_load Hr. rewrite Hf. cbv zeta.
  rewrite Hin, orb_true_r. reflexivity.
Qed.

End MoreLoading.

Lemma load_field_touches key c w r w' :
  load_field key c w = (r, w') ->
  disk w' = disk w /\ calls w' = calls w /\ stdout w' = stdout w
  /\ cfg (self w') = cfg (self w)
  /\ lr_scheduler (self w') = lr_scheduler (self w)
  /\ net_type (net (self w')) = net_type (net (self w))
  /\ (key <> "epoch" -> epoch (self w') = epoch (self w))
  /\ (key <> "stats" -> stats (self w') = stats (self w))
  /\ (key <> "best_val" -> best_val (self w') = best_val (self w))
  /\ (key <> "epoch_of_best_val" ->
      epoch_of_best_val (self w') = epoch_of_best_val (self w))
  /\ (key <> "state_dict" -> net (self w') = net (self w))
  /\ (key <> "optimizer" -> optimizer (self w') = optimizer (self w)).
Proof.
  unfold load_field, setattr_from.
  repeat (match goal with
          | |- context [String.eqb ?a ?b] =>
              destruct (String.eqb a b) eqn:?
          end);
    try destruct (ck_optimizer c); munfold; intros H; inversion H; subst;
    simpl; repeat split; try reflexivity; intros Hne;
    repeat match goal with
           | E : String.eqb _ _ = true |- _ => apply String.eqb_eq in E; subst
           end; try congruence.
Qed.

Lemma load_fields_touches fields ign c w r w' :
  load_fields fields ign c w = (r, w') ->
  disk w' = disk w /\ calls w' = calls w /\ stdout w' = stdout w
  /\ cfg (self w') = cfg (self w)
  /\ lr_scheduler (self w') = lr_scheduler (self w)
  /\ net_type (net (self w')) = net_type (net (self w))
  /\ (list_in "epoch" ign = true -> epoch (self w') = epoch (self w))
  /\ (list_in "stats" ign = true -> stats (self w') = stats (self w))
  /\ (list_in "best_val" ign = true -> best_val (self w') = best_val (self w))
  /\ (list_in "epoch_of_best_val" ign = true ->
      epoch_of_best_val (self w') = epoch_of_best_val (self w))
  /\ (list_in "state_dict" ign = true -> net (self w') = net (self w))
  /\ (list_in "optimizer" ign = true -> optimizer (self w') = optimizer (self w)).
Proof.
  revert w. induction fields as [|k rest IH]; intros w; simpl.
  - unfold ret. intros H; inversion H. repeat split; reflexivity.
  - unfold bind. destruct (list_in k ign) eqn:Hk.
    + unfold ret at 1. apply IH.
    + assert (Hne : forall key, list_in key ign = true -> k <> key).
      { intros key Hkey ->. congruence. }
      destruct (load_field k c w) as [[[]|x] w1] eqn:E;
        apply load_field_touches in E;
        destruct E as (E1 & E2 & E3 & E4 & E5 & E6 & E7 & E8 & E9 & E10 & E11 & E12).
      * intros H. apply IH in H.
        destruct H as (H1 & H2 & H3 & H4 & H5 & H6 & H7 & H8 & H9 & H10 & H11 & H12).
        repeat split; try congruence; intros Hi;
          [rewrite H7, E7 | rewrite H8, E8 | rewrite H9, E9 | rewrite H10, E10
           | rewrite H11, E11 | rewrite H12, E12]; auto.
      * intros H. inversion H; subst.
        repeat split; try congruence; intros Hi; auto.
Qed.

(** The rest of the load never touches the disk or the call count; in resume
    mode it keeps the training state and the weights, from an explicit file
    it resets the training state; it raises only at the scheduler. *)
Lemma load_tail_effect resume lc c fields w r w' :
  load_tail resume lc c fields w = (r, w') ->
  disk w' = disk w /\ calls w' = calls w
  /\ state_dict (net (self w')) = state_dict (net (self w))
  /\ optimizer (self w') = optimizer (self w)
  /\ (if resume
      then epoch (self w') = epoch (self w) /\ stats (self w') = stats (self w)
           /\ best_val (self w') = best_val (self w)
           /\ epoch_of_best_val (self w') = epoch_of_best_val (self w)
      else epoch (self w') = 0 /\ stats (self w') = ∅
           /\ best_val (self w') = infinity /\ epoch_of_best_val (self w') = 0)
  /\ (if list_in "epoch" fields
      then match lr_scheduler (self w) with
           | Some s =>
               r = Ok RetTrue
               /\ lr_scheduler (self w')
                  = Some (set_last_epoch (epoch (self w')) s)
           | None => r = Raise (AttributeError "last_epoch")
           end
      else r = Ok RetTrue /\ lr_scheduler (self w') = lr_scheduler (self w)).
Proof.
  unfold load_tail.
  destruct resume, (ck_constructor c), lc, (ck_net_info c),
    (list_in "epoch" fields), (lr_scheduler (self w)) eqn:Hs;
    munfold; rewrite ?Hs; intros H; inversion H; subst; simpl;
    rewrite ?Hs; repeat split; reflexivity.
Qed.

Section LoadProperties.

Variable expanduser : string -> string.

Lemma load_checkpoint_frame arg fields ign add lc w r w' :
  load_checkpoint expanduser arg fields ign add lc w = (r, w') ->
  disk w' = disk w /\ calls w' = calls w.
Proof.
  unfold load_checkpoint.
  unfold bind at 1. unfold get_self at 1. unfold bind at 1. unfold get_disk at 1.
  destruct (resolve_checkpoint _ _ _ _) as [path resume| |x];
    [| intros H; inversion H; split; reflexivity..].
  unfold bind at 1. unfold print at 1. unfold bind at 1. unfold print at 1.
  unfold bind at 1. unfold torch_load at 1. simpl disk.
  destruct (files (disk w) !! path) as [[c|c n]|];
    [| intros H; inversion H; split; reflexivity..].
  cbv zeta. destruct (negb _); [intros H; inversion H; split; reflexivity|].
  unfold bind at 1.
  destruct (load_fields _ _ _ _) as [[[]|x] w1] eqn:E;
    apply load_fields_touches in E; destruct E as (E1 & E2 & _);
    simpl in E1, E2.
  - match goal with
    | |- context [?m w1] =>
        change m with (load_tail resume lc c (default checkpoint_keys fields))
    end.
    intros H. apply load_tail_effect in H as (H1 & H2 & _). split; congruence.
  - intros H; inversion H; subst. split; congruence.
Qed.

(** X6: [load_checkpoint] never writes: whatever its arguments and whether
    it returns or raises, the disk is the one it started from, and
    [train_epoch] has not been called. *)
Theorem load_checkpoint_never_writes
    (arg : ckpt_arg) (fields ign add : option (list string)) (lc : bool)
    (w : world) :
  disk (snd (load_checkpoint expanduser arg fields ign add lc w)) = disk w
  /\ calls (snd (load_checkpoint expanduser arg fields ign add lc w)) = calls w.
Proof.
  destruct (load_checkpoint expanduser arg fields ign add lc w) as [r w'] eqn:E.
  apply load_checkpoint_frame in E. exact E.
Qed.

(** X7: a load that fails before the loop over the fields leaves the
    trainer as it was.  When the argument selects no checkpoint (a directory
    without one, a value that is neither [None], an [int] nor a [str])
    nothing at all changes.  When the selected file is missing, or is torn
    and cannot be unpickled, or holds a checkpoint whose net type does not
    occur in the current one, the two lines are printed and nothing else
    happens: no attribute of the trainer is set. *)
Theorem load_checkpoint_failure_keeps_trainer
    (arg : ckpt_arg) (fields ign add : option (list string)) (lc : bool)
    (w : world) :
  (forall x,
      resolve_checkpoint expanduser arg (self w) (disk w) = ResolveFails x ->
      load_checkpoint expanduser arg fields ign add lc w = (Raise x, w))
  /\ (forall path resume,
        resolve_checkpoint expanduser arg (self w) (disk w) = Resolved path resume ->
        self (announced path w) = self w
        /\ stdout (announced path w)
           = (stdout w ++ [CurrentEpoch (epoch (self w)); LoadFrom path])%list
        /\ (files (disk w) !! path = None ->
            load_checkpoint expanduser arg fields ign add lc w
            = (Raise (FileNotFoundError path), announced path w))
        /\ (forall c n,
              files (disk w) !! path = Some (Torn c n) ->
              load_checkpoint expanduser arg fields ign add lc w
              = (Raise (UnpicklingError path), announced path w))
        /\ (forall c,
              files (disk w) !! path = Some (Whole c) ->
              Py.str_in (ck_net_type c) (net_type (net (self w))) = false ->
              load_checkpoint expanduser arg fields ign add lc w
              = (Raise (AssertionError (net_type (net (self w))) (ck_net_type c)),
                 announced path w))).
Proof.
  split.
  - intros x Hr. unfold load_checkpoint.
    unfold bind at 1. unfold get_self at 1. unfold bind at 1. unfold get_disk at 1.
    rewrite Hr. reflexivity.
  - intros path resume Hr.
    split; [reflexivity|].
    split; [unfold announced; simpl; rewrite <- app_assoc; reflexivity|].
    split; [|split].
    + intros Hf. enter_load Hr. rewrite Hf. reflexivity.
    + intros c n Hf. enter_load Hr. rewrite Hf. reflexivity.
    + intros c Hf Hin. enter_load Hr. rewrite Hf. cbv zeta.
      rewrite Hin, orb_false_r.
      destruct (String.eqb _ _) eqn:Heq; [|reflexivity].
      apply String.eqb_eq in Heq. rewrite <- Heq, str_in_refl in Hin. discriminate.
Qed.

End LoadProperties.

Lemma load_checkpoint_failure_keeps_trainer_witness :
  exists w',
    load_checkpoint id (CkStr "old/weights.pth.tar") None None None false
      (Demo.with_foreign "Flow")
    = (Raise (AssertionError "GLUNet" "Flow"), w')
    /\ self w' = self (Demo.with_foreign "Flow").
Proof.
  destruct (load_checkpoint_failure_keeps_trainer id (CkStr "old/weights.pth.tar")
              None None None false (Demo.with_foreign "Flow")) as [_ H].
  destruct (H "old/weights.pth.tar" false eq_refl) as (Hself & _ & _ & _ & Ha).
  eexists. split; [|exact Hself].
  apply (Ha (Demo.foreign_checkpoint "Flow")); vm_compute; reflexivity.
Defined.

(** The field loop with the default lists on a checkpoint of
    [save_checkpoint]: the weights, the optimizer state when it is not empty,
    and the four training-state fields are taken from the checkpoint. *)
Lemma load_fields_default c w :
  exists w',
    load_fields checkpoint_keys (ignored None None) c w = (Ok tt, w')
    /\ epoch (self w') = ck_epoch c /\ stats (self w') = ck_stats c
    /\ best_val (self w') = ck_best_val c
    /\ epoch_of_best_val (self w') = ck_epoch_of_best_val c
    /\ state_dict (net (self w')) = ck_state_dict c
    /\ optimizer (self w')
       = match ck_optimizer c with [] => optimizer (self w) | _ => ck_optimizer c end
    /\ lr_scheduler (self w') = lr_scheduler (self w).
Proof.
  simpl. unfold load_field, setattr_from. simpl.
  destruct (ck_optimizer c); munfold; eexists; repeat split.
Qed.



Section LoadModes.

Variable expanduser : string -> string.

(** X8: a load from an explicit file (a path that is no directory) with the
    default field lists, by a trainer with a scheduler, of a checkpoint
    whose net type occurs in the current one and whose weights and optimizer
    state the network and the optimizer accept, returns [True]; it takes the
    weights of the checkpoint and starts the training state afresh: epoch
    0, empty stats, [best_val = +infinity], [epoch_of_best_val = 0], and the
    scheduler's [last_epoch] set to 0. *)
Theorem load_from_file_starts_fresh
    (p : string) (lc : bool) (w : world) (c : checkpoint) (s : scheduler) :
  FS.isdir p (disk w) = false ->
  files (disk w) !! expanduser p = Some (Whole c) ->
  Py.str_in (ck_net_type c) (net_type (net (self w))) = true ->
  fits (ck_state_dict c) (state_dict (net (self w))) ->
  ck_optimizer c = [] \/ fits (ck_optimizer c) (optimizer (self w)) ->
  lr_scheduler (self w) = Some s ->
  exists w',
    load_checkpoint expanduser (CkStr p) None None None lc w = (Ok RetTrue, w')
    /\ state_dict (net (self w')) = ck_state_dict c
    /\ epoch (self w') = 0 /\ stats (self w') = ∅
    /\ best_val (self w') = infinity /\ epoch_of_best_val (self w') = 0
    /\ lr_scheduler (self w') = Some (set_last_epoch 0 s).
Proof.
  intros Hdir Hf Hin _ _ Hs.
  assert (Hr : resolve_checkpoint expanduser (CkStr p) (self w) (disk w)
               = Resolved (expanduser p) false).
  { simpl. rewrite Hdir. reflexivity. }
  rewrite (load_checkpoint_loaded _ _ _ _ _ _ _ _ _ _ Hr Hf Hin).
  change (default checkpoint_keys None) with checkpoint_keys.
  unfold bind at 1.
  destruct (load_fields_default c (announced (expanduser p) w))
    as (w1 & -> & _ & _ & _ & _ & Hsd & _ & Hl).
  destruct (load_tail false lc c checkpoint_keys w1)
    as [r w2] eqn:E.
  apply load_tail_effect in E as (_ & _ & Hsd2 & _ & (He & Hst & Hb & Ho) & Hr2).
  change (list_in "epoch" checkpoint_keys) with true in Hr2.
  rewrite Hl in Hr2. simpl in Hr2. rewrite Hs in Hr2. destruct Hr2 as [-> Hl2].
  exists w2. rewrite He in Hl2. repeat split; try assumption. congruence.
Qed.



(** X11: in a resuming load, a field named in [ignore_fields] or
    [additional_ignore_fields] keeps the value the trainer had, whether the
    load returns or raises. *)
Theorem load_ignored_fields_keep_values
    (arg : ckpt_arg) (fields ign add : option (list string)) (lc : bool)
    (w : world) (path : string) (c : checkpoint) :
  resolve_checkpoint expanduser arg (self w) (disk w) = Resolved path true ->
  files (disk w) !! path = Some (Whole c) ->
  Py.str_in (ck_net_type c) (net_type (net (self w))) = true ->
  let w' := snd (load_checkpoint expanduser arg fields ign add lc w) in
  (list_in "epoch" (ignored ign add) = true -> epoch (self w') = epoch (self w))
  /\ (list_in "stats" (ignored ign add) = true -> stats (self w') = stats (self w))
  /\ (list_in "best_val" (ignored ign add) = true ->
      best_val (self w') = best_val (self w))
  /\ (list_in "epoch_of_best_val" (ignored ign add) = true ->
      epoch_of_best_val (self w') = epoch_of_best_val (self w))
  /\ (list_in "state_dict" (ignored ign add) = true ->
      state_dict (net (self w')) = state_dict (net (self w)))
  /\ (list_in "optimizer" (ignored ign add) = true ->
      optimizer (self w') = optimizer (self w)).
Proof.
  intros Hr Hf Hin.
  destruct (load_checkpoint expanduser arg fields ign add lc w) as [r w'] eqn:E.
  rewrite (load_checkpoint_loaded _ _ _ _ _ _ _ _ _ _ Hr Hf Hin) in E.
  unfold bind at 1 in E.
  destruct (load_fields _ _ _ _) as [[[]|x] w1] eqn:E1 in E;
    apply load_fields_touches in E1;
    destruct E1 as (_ & _ & _ & _ & _ & _ & H1 & H2 & H3 & H4 & H5 & H6);
    simpl in H1, H2, H3, H4, H5, H6.
  - apply load_tail_effect in E as (_ & _ & Hsd & Hop & (He & Hst & Hb & Ho) & _).
    simpl.
    split; [intros Hi; rewrite He; auto|].
    split; [intros Hi; rewrite Hst; auto|].
    split; [intros Hi; rewrite Hb; auto|].
    split; [intros Hi; rewrite Ho; auto|].
    split; [intros Hi; rewrite Hsd, H5 by exact Hi; reflexivity|].
    intros Hi; rewrite Hop; auto.
  - inversion E; subst. simpl.
    split; [auto|]. split; [auto|]. split; [auto|]. split; [auto|].
    split; [intros Hi; rewrite H5 by exact Hi; reflexivity|]. auto.
Qed.

End LoadModes.

Lemma load_from_file_starts_fresh_witness :
  exists w',
    load_checkpoint id (CkStr "old/weights.pth.tar") None None None false
      Demo.with_pretrained = (Ok RetTrue, w')
    /\ state_dict (net (self w')) = [4; 5; 6] /\ epoch (self w') = 0.
Proof.
  destruct (load_from_file_starts_fresh id "old/weights.pth.tar" false
              Demo.with_pretrained Demo.pretrained_checkpoint Demo.sched)
    as (w' & H & Hsd & He & _);
    [reflexivity | vm_compute; reflexivity | reflexivity | reflexivity
     | right; reflexivity | reflexivity |].
  exists w'. split; [exact H | split; [exact Hsd | exact He]].
Defined.



Lemma load_ignored_fields_keep_values_witness :
  epoch (self (snd (load_checkpoint id CkNone None None (Some ["epoch"]) false
                      (Demo.two_saves 5)))) = 10000.
Proof.
  destruct (load_ignored_fields_keep_values id CkNone None None (Some ["epoch"])
              false (Demo.two_saves 5) "ws/run/GLUNet_ep9999.pth.tar"
              (checkpoint_state (self (Demo.at_epoch 9999 (Demo.fresh 5)))
                 Demo.sched))
    as (He & _);
    [vm_compute; reflexivity | vm_compute; reflexivity | reflexivity |].
  exact (He eq_refl).
Defined.
